(** * A shallow embedding of the local sqlite3 client (src/sqlite3.ts)

    The development follows the source file:

    - [Js]                 : the JavaScript values, numbers and thrown
                             errors the adapter handles;
    - [Codec]              : [valueFromSql] and [valueToSql] with their
                             constants;
    - [Eng]                : the storage engine binding (the [Database]
                             class of the [libsql] package), taken as a
                             parameter, and the monad of computations that
                             may throw and that call the engine;
    - [Exec]               : [executeStmt], [rowFromSql],
                             [executeMultiple], [mapSqliteError];
    - [Sqlite3Transaction] : the class of that name;
    - [Sqlite3Client]      : the class of that name;
    - [Create]             : [_createClient], the validation of the
                             configuration;
    - [Toy]                : a small concrete engine to run the model on;
    - [Spec]               : the vocabulary the statements use.

    Theorems come after all definitions. *)

From Stdlib Require Import ZArith Lia Bool List.
From Stdlib Require Import Strings.String Strings.Ascii Init.Byte.
From Stdlib Require Import Numbers.DecimalString Numbers.DecimalZ Numbers.DecimalPos.
From Stdlib Require Import Floats.SpecFloat.
From stdpp Require Import base gmap strings.

Local Open Scope Z_scope.
Local Set Warnings "-register-all".

(* ===================================================================== *)
(** ** JavaScript values                                                  *)
(* ===================================================================== *)

Module Js.

(** A JavaScript [number] is an IEEE-754 binary64 value. *)
Definition number : Type := spec_float.

Definition prec : Z := 53.
Definition emax : Z := 1024.

(** [Number(b)] for a bigint [b]: the binary64 value nearest to [b], ties to
    even. *)
Definition Number_of_bigint (b : Z) : number :=
  binary_normalize prec emax b 0 false.

(** [Number.isFinite(x)] for a value that already is a number. *)
Definition Number_isFinite (x : number) : bool :=
  match x with
  | S754_zero _ | S754_finite _ _ _ => true
  | S754_infinity _ | S754_nan => false
  end.

(** The integer a number denotes, when it denotes one. *)
Definition number_to_Z (x : number) : option Z :=
  match x with
  | S754_zero _ => Some 0
  | S754_finite s m e =>
      if 0 <=? e then Some (cond_Zopp s (Z.pos m * 2 ^ e))
      else if Z.pos m mod 2 ^ (- e) =? 0
           then Some (cond_Zopp s (Z.pos m / 2 ^ (- e)))
           else None
  | S754_infinity _ | S754_nan => None
  end.

(** [""+b] for a bigint [b]: its decimal digits, with a leading minus sign
    when negative. *)
Definition String_of_bigint (b : Z) : string :=
  NilZero.string_of_int (Z.to_int b).

(** The inverse reading of a decimal string, used only to state that the
    rendering loses nothing. *)
Definition bigint_of_String (s : string) : option Z :=
  option_map Z.of_int (NilZero.int_of_string s).

(** The values that reach the codec.  A [Date] is given by its time value:
    the milliseconds since the epoch, or [None] for an invalid date, whose
    [valueOf()] is NaN.  A Node [Buffer] is given by the bytes of the
    [ArrayBuffer] it views.  [JOther] stands for any value of another
    type. *)
Inductive JsValue : Type :=
  | JNull
  | JUndefined
  | JBoolean (b : bool)
  | JNumber (x : number)
  | JBigint (b : Z)
  | JString (s : string)
  | JArrayBuffer (bytes : list byte)
  | JBuffer (bytes : list byte)
  | JDate (time : option Z)
  | JOther (tag : nat).

(** [d.valueOf()] for a [Date]. *)
Definition Date_valueOf (time : option Z) : number :=
  match time with
  | Some t => Number_of_bigint t
  | None => S754_nan
  end.

(** What the code throws.  [SqliteError] is the engine binding's error
    class, with its message and its code.

    Modelled from the spec: [LibsqlError] of api.js, of which the sources at
    hand hold only the constructor calls; it carries a human-readable
    message, a stable string code and, optionally, the original cause. *)
Inductive JsError : Type :=
  | SqliteError (message code : string)
  | LibsqlError (message code : string) (cause : option JsError)
  | RangeError (message : string)
  | TypeError (message : string)
  | Error (message : string).

Inductive Result (A : Type) : Type :=
  | Ok (a : A)
  | Throw (e : JsError).
Arguments Ok {A} a.
Arguments Throw {A} e.

Definition is_Ok {A} (r : Result A) : bool :=
  match r with Ok _ => true | Throw _ => false end.

Definition is_RangeError (e : JsError) : bool :=
  match e with RangeError _ => true | _ => false end.

Definition is_TypeError (e : JsError) : bool :=
  match e with TypeError _ => true | _ => false end.


End Js.
Export Js.

(* ===================================================================== *)
(** ** The value codec                                                    *)
(* ===================================================================== *)

Inductive IntMode : Type :=
  | IntMode_number
  | IntMode_bigint
  | IntMode_string
  | IntMode_invalid.   (* any other run-time value of the field *)

Module Codec.

Definition minSafeBigint : Z := -9007199254740991.
Definition maxSafeBigint : Z := 9007199254740991.

Definition minInteger : Z := -9223372036854775808.
Definition maxInteger : Z := 9223372036854775807.

Definition valueFromSql (sqlValue : JsValue) (intMode : IntMode)
  : Result JsValue :=
  match sqlValue with
  | JBigint b =>
      match intMode with
      | IntMode_number =>
          if (b <? minSafeBigint) || (b >? maxSafeBigint) then
            Throw (RangeError
              "Received integer which cannot be safely represented as a JavaScript number")
          else Ok (JNumber (Number_of_bigint b))
      | IntMode_bigint => Ok sqlValue
      | IntMode_string => Ok (JString (String_of_bigint b))
      | IntMode_invalid => Throw (Error "Invalid value for IntMode")
      end
  | JBuffer bytes => Ok (JArrayBuffer bytes)
  | _ => Ok sqlValue
  end.

Definition valueToSql (value : JsValue) : Result JsValue :=
  match value with
  | JNumber x =>
      if negb (Number_isFinite x) then
        Throw (RangeError
          "Only finite numbers (not Infinity or NaN) can be passed as arguments")
      else Ok value
  | JBigint b =>
      if (b <? minInteger) || (b >? maxInteger) then
        Throw (RangeError
          "bigint is too large to be represented as a 64-bit integer and passed as argument")
      else Ok value
  | JBoolean b => Ok (JBigint (if b then 1 else 0))
  | JArrayBuffer bytes => Ok (JBuffer bytes)
  | JDate time => Ok (JNumber (Date_valueOf time))
  | JUndefined =>
      Throw (TypeError "undefined cannot be passed as argument to the database")
  | _ => Ok value
  end.

(** A value of the engine's INTEGER storage class. *)
Definition int64 (v : Z) : Prop := minInteger <= v <= maxInteger.

End Codec.
Export Codec.

(* ===================================================================== *)
(** ** The storage engine binding                                         *)
(* ===================================================================== *)

Module Eng.

(** The identity of a [Database] object. *)
Definition Hid : Type := nat.

(** The prototype of the object that carries named arguments:
    [Object.prototype], as for every object made by [{}], or [null], or
    another object, once an assignment to [__proto__] has replaced it. *)
Inductive Proto : Type :=
  | ProtoObject
  | ProtoNull
  | ProtoForeign (p : JsValue).

(** The object that carries named arguments: its own properties and its
    prototype. *)
Record NamedArgs : Type := {
  args_own : gmap string JsValue;
  args_proto : Proto
}.

(** The bound arguments handed to [all] and [run]: an array, or an object
    read by parameter name. *)
Inductive Args : Type :=
  | Positional (l : list JsValue)
  | Named (o : NamedArgs).

(** What [run] reports.  [safeIntegers(true)] makes the row id a bigint. *)
Record RunInfo : Type := { info_changes : Z; info_lastInsertRowid : Z }.

(** The binding is not part of the repository: its behaviour is a
    parameter.  Every method may change the engine's state and may throw
    any error; [close] does not throw.  [eng_inTransaction] is the getter
    [db.inTransaction].

    Two facts about the values the caller passes are parameters as well,
    since the model does not look into objects of other classes:
    [rt_is_Object tag] tells whether the value [JOther tag] is an object
    (and not, say, a symbol), and [rt_foreign_set p own key value] is what
    [args[key] = value] does in strict mode on an object with the own
    properties [own], none of them [key], whose prototype is the object
    [p]: the object afterwards, or the message of the [TypeError] thrown
    (as for a key that [p] answers with a getter and no setter).
    Prototypes with setters of the caller's own, which could run any
    code, are left out. *)
Record Engine : Type := {
  eng_state : Type;
  eng_stmt : Type;
  eng_new : Hid -> string -> eng_state -> Result unit * eng_state;
  eng_prepare : Hid -> string -> eng_state -> Result eng_stmt * eng_state;
  eng_safeIntegers : eng_stmt -> eng_state -> Result unit * eng_state;
  eng_raw : eng_stmt -> eng_state -> Result unit * eng_state;
  eng_columns : eng_stmt -> eng_state -> Result (list string) * eng_state;
  eng_all : eng_stmt -> Args -> eng_state
            -> Result (list (list JsValue)) * eng_state;
  eng_run : eng_stmt -> Args -> eng_state -> Result RunInfo * eng_state;
  eng_exec : Hid -> string -> eng_state -> Result unit * eng_state;
  eng_close : Hid -> eng_state -> eng_state;
  eng_inTransaction : Hid -> eng_state -> bool;
  rt_is_Object : nat -> bool;
  rt_foreign_set : JsValue -> gmap string JsValue -> string -> JsValue
                   -> NamedArgs + string
}.
Existing Class Engine.

(** One entry per method call on the binding, with what it answered.
    Reading the getters [open] and [inTransaction] is not a call. *)
Inductive Event : Type :=
  | EvNew (h : Hid) (path : string) (r : Result unit)
  | EvPrepare (h : Hid) (sql : string) (r : Result unit)
  | EvSafeIntegers (h : Hid) (r : Result unit)
  | EvRaw (h : Hid) (r : Result unit)
  | EvColumns (h : Hid) (r : Result (list string))
  | EvAll (h : Hid) (args : Args) (r : Result (list (list JsValue)))
  | EvRun (h : Hid) (args : Args) (r : Result RunInfo)
  | EvExec (h : Hid) (sql : string) (r : Result unit)
  | EvClose (h : Hid).

Section World.
Context {E : Engine}.

(** The state the adapter runs in: the engine, the [Database] objects whose
    [open] flag is set, the next object identity, and the calls so far. *)
Record World : Type := {
  w_eng : eng_state E;
  w_open : gset Hid;
  w_next : Hid;
  w_trace : list Event
}.

(** Computations that may throw and that thread the world. *)
Definition M (A : Type) : Type := World -> Result A * World.

Definition ret {A} (a : A) : M A := fun w => (Ok a, w).

Definition throw {A} (e : JsError) : M A := fun w => (Throw e, w).

Definition lift {A} (r : Result A) : M A := fun w => (r, w).

Definition bind {A B} (m : M A) (k : A -> M B) : M B :=
  fun w =>
    match m w with
    | (Ok a, w') => k a w'
    | (Throw e, w') => (Throw e, w')
    end.

(** [try { m } catch (e) { h e }] *)
Definition try_catch {A} (m : M A) (h : JsError -> M A) : M A :=
  fun w =>
    match m w with
    | (Ok a, w') => (Ok a, w')
    | (Throw e, w') => h e w'
    end.

(** [try { m } finally { f }] *)
Definition try_finally {A} (m : M A) (f : M unit) : M A :=
  fun w =>
    let '(r, w') := m w in
    match f w' with
    | (Ok _, w'') => (r, w'')
    | (Throw e, w'') => (Throw e, w'')
    end.

(** A method call on the binding: run it on the engine and log it. *)
Definition call {A} (ev : Result A -> Event)
  (f : eng_state E -> Result A * eng_state E) : M A :=
  fun w =>
    let '(r, s) := f (w_eng w) in
    (r, {| w_eng := s; w_open := w_open w; w_next := w_next w;
           w_trace := w_trace w ++ [ev r] |}).

Definition forget {A} (r : Result A) : Result unit :=
  match r with Ok _ => Ok tt | Throw e => Throw e end.

(** [db.open] and [db.inTransaction] *)
Definition db_open (db : Hid) (w : World) : bool :=
  bool_decide (db ∈ w_open w).

Definition db_inTransaction (db : Hid) (w : World) : bool :=
  eng_inTransaction E db (w_eng w).

(** [new Database(path, options)]: a fresh object, open once constructed. *)
Definition new_Database (path : string) : M Hid :=
  fun w =>
    let h := w_next w in
    let '(r, s) := eng_new E h path (w_eng w) in
    let tr := w_trace w ++ [EvNew h path r] in
    match r with
    | Ok _ =>
        (Ok h, {| w_eng := s; w_open := {[ h ]} ∪ w_open w;
                  w_next := S h; w_trace := tr |})
    | Throw e =>
        (Throw e, {| w_eng := s; w_open := w_open w;
                     w_next := S h; w_trace := tr |})
    end.

(** [db.close()] *)
Definition db_close (db : Hid) : M unit :=
  fun w =>
    (Ok tt, {| w_eng := eng_close E db (w_eng w);
               w_open := w_open w ∖ {[ db ]};
               w_next := w_next w;
               w_trace := w_trace w ++ [EvClose db] |}).

Fixpoint mapM {A B} (f : A -> M B) (l : list A) : M (list B) :=
  match l with
  | [] => ret []
  | a :: l' => bind (f a) (fun b => bind (mapM f l') (fun bs => ret (b :: bs)))
  end.

End World.
Arguments World : clear implicits.
Arguments M : clear implicits.

End Eng.
Export Eng.

Declare Scope js_scope.
Delimit Scope js_scope with js.
Notation "'do' x <- m ; k" := (bind m (fun x => k))
  (at level 10, x name, m at level 100, k at level 200) : js_scope.
Notation "'run' m ; k" := (bind m (fun _ => k))
  (at level 10, m at level 100, k at level 200) : js_scope.

(* ===================================================================== *)
(** ** Statement execution                                                *)
(* ===================================================================== *)

Module Exec.

(** [stmt.args]: an array, or an object given by its enumerable properties
    in [for ... in] order (names are distinct). *)
Inductive InArgs : Type :=
  | ArgsArray (l : list JsValue)
  | ArgsObject (props : list (string * JsValue)).

Inductive InStatement : Type :=
  | StmtString (sql : string)
  | StmtObject (sql : string) (args : InArgs).

(** A property of a row object.  [Object.defineProperty] leaves [writable]
    and [configurable] false, so only the value and [enumerable] vary. *)
Record Property : Type := {
  p_key : string;
  p_value : JsValue;
  p_enumerable : bool
}.

(** A row: its own properties, in creation order. *)
Definition Row : Type := list Property.

(** Modelled from the spec: [ResultSetImpl] of util.js, of which the sources
    at hand hold only the constructor calls; a ResultSet is the ordered
    column names, the ordered rows, the rowsAffected count and the optional
    last-inserted-row identifier. *)
Record ResultSet : Type := ResultSetImpl {
  columns : list string;
  rows : list Row;
  rowsAffected : Z;
  lastInsertRowid : option Z
}.

Definition number_eqb (x y : number) : bool :=
  match x, y with
  | S754_zero s, S754_zero s' => Bool.eqb s s'
  | S754_infinity s, S754_infinity s' => Bool.eqb s s'
  | S754_nan, S754_nan => true
  | S754_finite s m e, S754_finite s' m' e' =>
      Bool.eqb s s' && (m =? m')%positive && (e =? e')
  | _, _ => false
  end.

(** SameValue, as [Object.defineProperty] applies it to the value of an
    existing read-only property.  Objects are the same only when they are
    one object; the two values compared here come from different cells of
    a row, which hold different objects. *)
Definition SameValue (x y : JsValue) : bool :=
  match x, y with
  | JNull, JNull => true
  | JUndefined, JUndefined => true
  | JBoolean a, JBoolean b => Bool.eqb a b
  | JNumber a, JNumber b => number_eqb a b
  | JBigint a, JBigint b => a =? b
  | JString a, JString b => String.eqb a b
  | _, _ => false
  end.

Definition getOwn (row : Row) (key : string) : option Property :=
  find (fun p => String.eqb (p_key p) key) row.

(** [Object.hasOwn(row, key)] *)
Definition hasOwn (row : Row) (key : string) : bool :=
  match getOwn row key with Some _ => true | None => false end.

(** [Object.defineProperty(row, key, { value, enumerable })], where
    [enumerable] may be left out. *)
Definition defineProperty (row : Row) (key : string) (value : JsValue)
  (enumerable : option bool) : Result Row :=
  match getOwn row key with
  | None =>
      Ok (row ++ [{| p_key := key; p_value := value;
                     p_enumerable := default false enumerable |}])
  | Some p =>
      if SameValue value (p_value p)
         && match enumerable with
            | Some b => Bool.eqb b (p_enumerable p)
            | None => true
            end
      then Ok row
      else Throw (TypeError (String.append "Cannot redefine property: " key))
  end.

(** [String(i)] for an array index. *)
Definition index_key (i : nat) : string :=
  NilZero.string_of_uint (Nat.to_uint i).

(** [columns[i]] used as a property key: a missing element reads as
    [undefined], whose key is the string "undefined". *)
Definition column_key (columns : list string) (i : nat) : string :=
  nth i columns "undefined"%string.

Definition rbind {A B} (r : Result A) (k : A -> Result B) : Result B :=
  match r with Ok a => k a | Throw e => Throw e end.

(** The loop of [rowFromSql] from index [i] on, over the remaining cells. *)
Fixpoint rowFromSql_loop (cells : list JsValue) (i : nat)
  (columns : list string) (intMode : IntMode) (row : Row) : Result Row :=
  match cells with
  | [] => Ok row
  | cell :: cells' =>
      rbind (valueFromSql cell intMode) (fun value =>
      rbind (defineProperty row (index_key i) value None) (fun row1 =>
      let column := column_key columns i in
      rbind (if negb (hasOwn row1 column)
             then defineProperty row1 column value (Some true)
             else Ok row1) (fun row2 =>
      rowFromSql_loop cells' (S i) columns intMode row2)))
  end.

Definition rowFromSql (sqlRow : list JsValue) (columns : list string)
  (intMode : IntMode) : Result Row :=
  rbind (defineProperty [] "length"
           (JNumber (Number_of_bigint (Z.of_nat (length sqlRow)))) None)
        (fun row => rowFromSql_loop sqlRow 0 columns intMode row).

Fixpoint rmap {A B} (f : A -> Result B) (l : list A) : Result (list B) :=
  match l with
  | [] => Ok []
  | a :: l' => rbind (f a) (fun b => rbind (rmap f l') (fun bs => Ok (b :: bs)))
  end.

(** The name an argument is bound under: one leading sigil is dropped. *)
Definition argName (name : string) : string :=
  match name with
  | String c rest =>
      if (Ascii.eqb c "@" || Ascii.eqb c "$" || Ascii.eqb c ":")%bool
      then rest else name
  | EmptyString => name
  end.

Section Encode.
Context {E : Engine}.

(** Whether a value is an object, as the setter of [__proto__] asks. *)
Definition is_Object (v : JsValue) : bool :=
  match v with
  | JArrayBuffer _ | JBuffer _ | JDate _ => true
  | JOther tag => rt_is_Object E tag
  | _ => false
  end.

(** The object [{}] that [executeStmt] starts from. *)
Definition empty_object : NamedArgs :=
  {| args_own := ∅; args_proto := ProtoObject |}.

Definition set_own (args : NamedArgs) (key : string) (value : JsValue)
  : NamedArgs :=
  {| args_own := <[ key := value ]> (args_own args);
     args_proto := args_proto args |}.

Definition set_proto (args : NamedArgs) (p : Proto) : NamedArgs :=
  {| args_own := args_own args; args_proto := p |}.

(** [args[key] = value] in strict mode.  An own property is overwritten.
    Otherwise, below [Object.prototype] the key [__proto__] reaches the
    inherited setter, which replaces the prototype when the value is null
    or an object and does nothing for any other value, and every other key
    becomes an own property; without a prototype every key, [__proto__]
    included, becomes an own property; below another object the outcome is
    the runtime's. *)
Definition obj_set (args : NamedArgs) (key : string) (value : JsValue)
  : Result NamedArgs :=
  match args_own args !! key with
  | Some _ => Ok (set_own args key value)
  | None =>
      match args_proto args with
      | ProtoNull => Ok (set_own args key value)
      | ProtoObject =>
          if String.eqb key "__proto__" then
            match value with
            | JNull => Ok (set_proto args ProtoNull)
            | _ => if is_Object value
                   then Ok (set_proto args (ProtoForeign value))
                   else Ok args
            end
          else Ok (set_own args key value)
      | ProtoForeign p =>
          match rt_foreign_set E p (args_own args) key value with
          | inl args' => Ok args'
          | inr message => Throw (TypeError message)
          end
      end
  end.

(** The [for (const name in stmt.args)] loop. *)
Fixpoint encodeNamed (props : list (string * JsValue)) (args : NamedArgs)
  : Result NamedArgs :=
  match props with
  | [] => Ok args
  | (name, value) :: props' =>
      rbind (valueToSql value) (fun v =>
      rbind (obj_set args (argName name) v) (fun args' =>
      encodeNamed props' args'))
  end.

(** The first part of [executeStmt]: the SQL text and the encoded
    arguments. *)
Definition encodeStmt (stmt : InStatement) : Result (string * Args) :=
  match stmt with
  | StmtString sql => Ok (sql, Positional [])
  | StmtObject sql (ArgsArray l) =>
      rbind (rmap valueToSql l) (fun args => Ok (sql, Positional args))
  | StmtObject sql (ArgsObject props) =>
      rbind (encodeNamed props empty_object)
            (fun args => Ok (sql, Named args))
  end.

End Encode.

Definition mapSqliteError (e : JsError) : JsError :=
  match e with
  | SqliteError message code => LibsqlError message code (Some e)
  | _ => e
  end.

Section Exec.
Context {E : Engine}.
Local Open Scope js_scope.

(** The body of the [try] block of [executeStmt]. *)
Definition executeStmt_body (db : Hid) (sql : string) (args : Args)
  (intMode : IntMode) : M E ResultSet :=
  do sqlStmt <- call (fun r => EvPrepare db sql (forget r))
                     (eng_prepare E db sql);
  run call (EvSafeIntegers db) (eng_safeIntegers E sqlStmt);
  do returnsData <-
     try_catch (run call (EvRaw db) (eng_raw E sqlStmt); ret true)
               (fun _ => ret false);
  if returnsData : bool then
    do columns <- call (EvColumns db) (eng_columns E sqlStmt);
    do sqlRows <- call (EvAll db args) (eng_all E sqlStmt args);
    do rows <- lift (rmap (fun sqlRow => rowFromSql sqlRow columns intMode)
                          sqlRows);
    ret (ResultSetImpl columns rows 0 None)
  else
    do info <- call (EvRun db args) (eng_run E sqlStmt args);
    ret (ResultSetImpl [] [] (info_changes info)
                       (Some (info_lastInsertRowid info))).

Definition executeStmt (db : Hid) (stmt : InStatement) (intMode : IntMode)
  : M E ResultSet :=
  do sa <- lift (encodeStmt stmt);
  try_catch (executeStmt_body db (fst sa) (snd sa) intMode)
            (fun e => throw (mapSqliteError e)).

Definition executeMultiple (db : Hid) (sql : string) : M E unit :=
  try_catch (call (EvExec db sql) (eng_exec E db sql))
            (fun e => throw (mapSqliteError e)).

End Exec.

End Exec.
Export Exec.

(* ===================================================================== *)
(** ** class Sqlite3Transaction                                           *)
(* ===================================================================== *)

Module Sqlite3Transaction.

(** The private fields [#database] and [#intMode]. *)
Record t : Type := { database : Hid; intMode : IntMode }.

Definition transaction_closed_error : JsError :=
  LibsqlError "The transaction is closed" "TRANSACTION_CLOSED" None.

Section Methods.
Context {E : Engine}.
Local Open Scope js_scope.

Definition checkNotClosed (this : t) : M E unit :=
  fun w =>
    if negb (db_open (database this) w)
       || negb (db_inTransaction (database this) w)
    then throw transaction_closed_error w
    else ret tt w.

Definition execute (this : t) (stmt : InStatement) : M E ResultSet :=
  run checkNotClosed this;
  executeStmt (database this) stmt (intMode this).

Definition batch (this : t) (stmts : list InStatement)
  : M E (list ResultSet) :=
  mapM (fun stmt =>
          run checkNotClosed this;
          executeStmt (database this) stmt (intMode this))
       stmts.

Definition executeMultiple (this : t) (sql : string) : M E unit :=
  run checkNotClosed this;
  Exec.executeMultiple (database this) sql.

Definition rollback (this : t) : M E unit :=
  fun w =>
    if negb (db_open (database this) w) then ret tt w
    else
      (run checkNotClosed this;
       run executeStmt (database this) (StmtString "ROLLBACK") (intMode this);
       db_close (database this)) w.

Definition commit (this : t) : M E unit :=
  run checkNotClosed this;
  run executeStmt (database this) (StmtString "COMMIT") (intMode this);
  db_close (database this).

Definition close (this : t) : M E unit :=
  db_close (database this).

(** The getter [closed]. *)
Definition closed (this : t) (w : World E) : bool :=
  negb (db_open (database this) w).

End Methods.

End Sqlite3Transaction.

(* ===================================================================== *)
(** ** class Sqlite3Client                                                *)
(* ===================================================================== *)

(** A transaction mode is a string at run time; which strings are modes
    is for [transactionModeToBegin] to say. *)
Definition TransactionMode : Type := string.

Module Sqlite3Client.

(** The fields [#path], [#intMode] and [closed]; [#options] is always the
    empty object and [protocol] the constant "file". *)
Record t : Type := { path : string; intMode : IntMode; closed : bool }.

Definition constructor (path : string) (intMode : IntMode) : t :=
  {| path := path; intMode := intMode; closed := false |}.

Definition client_closed_error : JsError :=
  LibsqlError "The client is closed" "CLIENT_CLOSED" None.

Definition rolled_back_error : JsError :=
  LibsqlError "The transaction has been rolled back" "TRANSACTION_CLOSED" None.

Definition close (this : t) : t :=
  {| path := path this; intMode := intMode this; closed := true |}.

Section Methods.
Context {E : Engine}.
(** [transactionModeToBegin] of util.js gives the BEGIN statement of a
    mode, or throws; the file is not part of the sources at hand, so the
    function is a parameter. *)
Variable transactionModeToBegin : TransactionMode -> Result string.
Local Open Scope js_scope.

Definition checkNotClosed (this : t) : M E unit :=
  fun w =>
    if closed this then throw client_closed_error w else ret tt w.

Definition execute (this : t) (stmt : InStatement) : M E ResultSet :=
  run checkNotClosed this;
  do db <- new_Database (path this);
  try_finally (executeStmt db stmt (intMode this)) (db_close db).

(** [mode] defaults to "deferred". *)
Definition batch (this : t) (stmts : list InStatement)
  (mode : option TransactionMode) : M E (list ResultSet) :=
  run checkNotClosed this;
  do db <- new_Database (path this);
  try_finally
    (do begin <- lift (transactionModeToBegin (default "deferred" mode));
     run executeStmt db (StmtString begin) (intMode this);
     do resultSets <-
        mapM (fun stmt w =>
                if negb (db_inTransaction db w)
                then throw rolled_back_error w
                else executeStmt db stmt (intMode this) w)
             stmts;
     run executeStmt db (StmtString "COMMIT") (intMode this);
     ret resultSets)
    (db_close db).

(** [mode] defaults to "write". *)
Definition transaction (this : t) (mode : option TransactionMode)
  : M E Sqlite3Transaction.t :=
  run checkNotClosed this;
  do db <- new_Database (path this);
  try_catch
    (do begin <- lift (transactionModeToBegin (default "write" mode));
     run executeStmt db (StmtString begin) (intMode this);
     ret {| Sqlite3Transaction.database := db;
            Sqlite3Transaction.intMode := intMode this |})
    (fun e => run db_close db; throw e).

Definition executeMultiple (this : t) (sql : string) : M E unit :=
  run checkNotClosed this;
  do db <- new_Database (path this);
  try_finally (Exec.executeMultiple db sql) (db_close db).

End Methods.

End Sqlite3Client.

(* ===================================================================== *)
(** ** _createClient                                                      *)
(* ===================================================================== *)

Module Create.

(** The fields of an expanded configuration that [_createClient] reads.
    Of the port and the user information only the presence is read. *)
Record Authority : Type := {
  host : string;
  port : option Z;
  userinfo : option string
}.

Record ExpandedConfig : Type := {
  scheme : string;
  authority : option Authority;
  path : string;
  intMode : IntMode
}.

Definition probe_sql : string := "SELECT 1 AS checkThatTheDatabaseCanBeOpened".

(** The double quote, as a string. *)
Definition dquote : string := String (ascii_of_nat 34) EmptyString.

Section Create.
Context {E : Engine}.
(** [String.prototype.toLowerCase], [JSON.stringify] on a string and the
    constant [supportedUrlLink] of util.js are parameters. *)
Variable toLowerCase : string -> string.
Variable JSON_stringify : string -> string.
Variable supportedUrlLink : string.
Local Open Scope js_scope.

Definition scheme_error (config : ExpandedConfig) : JsError :=
  LibsqlError
    (String.concat EmptyString
       ["URL scheme ";
        JSON_stringify (String.append (scheme config) ":");
        " is not supported by the local sqlite3 client. ";
        "For more information, please read "; supportedUrlLink]%string)
    "URL_SCHEME_NOT_SUPPORTED" None.

Definition host_error (a : Authority) : JsError :=
  LibsqlError
    (String.concat EmptyString
       ["Invalid host in file URL: "; JSON_stringify (host a); ". ";
        "A "; dquote; "file:"; dquote;
        " URL with an absolute path should start with one slash (";
        dquote; "file:/absolute/path.db"; dquote; ") ";
        "or with three slashes ("; dquote; "file:///absolute/path.db";
        dquote; "). ";
        "For more information, please read "; supportedUrlLink]%string)
    "URL_INVALID" None.

Definition port_error : JsError :=
  LibsqlError "File URL cannot have a port" "URL_INVALID" None.

Definition userinfo_error : JsError :=
  LibsqlError "File URL cannot have username and password" "URL_INVALID" None.

(** The checks on [config.authority]. *)
Definition check_authority (config : ExpandedConfig) : Result unit :=
  match authority config with
  | Some a =>
      let h := toLowerCase (host a) in
      if negb (String.eqb h EmptyString) && negb (String.eqb h "localhost")
      then Throw (host_error a)
      else match port a with
           | Some _ => Throw port_error
           | None =>
               match userinfo a with
               | Some _ => Throw userinfo_error
               | None => Ok tt
               end
           end
  | None => Ok tt
  end.

Definition _createClient (config : ExpandedConfig) : M E Sqlite3Client.t :=
  if negb (String.eqb (scheme config) "file") then
    throw (scheme_error config)
  else
    run lift (check_authority config);
    do db <- new_Database (path config);
    run try_finally (executeStmt db (StmtString probe_sql) (intMode config))
                    (db_close db);
    ret (Sqlite3Client.constructor (path config) (intMode config)).

End Create.

End Create.

(* ===================================================================== *)
(** ** A small engine to run the model on                                 *)
(* ===================================================================== *)

Module Toy.

(** The engine knows a handful of statements, none of which has a
    parameter: values bound beyond the parameters are not looked at any
    further, but a value that is not a number, a string, a bigint, a
    buffer or null cannot be bound at all, and [all] and [run] throw an
    error that is no [SqliteError] for it.  The engine keeps the handles
    that have a transaction in progress, a switch that makes COMMIT fail
    as a locked database does, and the last row id. *)
Record state : Type := {
  in_tx : list Hid;
  locked : bool;
  rowid : Z
}.

Definition is_begin (sql : string) : bool :=
  String.eqb sql "BEGIN DEFERRED" || String.eqb sql "BEGIN IMMEDIATE"
  || String.eqb sql "BEGIN TRANSACTION READONLY".

Definition known (sql : string) : bool :=
  is_begin sql || String.eqb sql "COMMIT" || String.eqb sql "ROLLBACK"
  || String.eqb sql "SELECT 1" || String.eqb sql "INSERT INTO t VALUES (1)".

Definition has_tx (h : Hid) (s : state) : bool :=
  existsb (Nat.eqb h) (in_tx s).

Definition drop_tx (h : Hid) (s : state) : state :=
  {| in_tx := filter (fun k => negb (Nat.eqb h k)) (in_tx s);
     locked := locked s; rowid := rowid s |}.

(** The values the engine can bind to a parameter. *)
Definition bindable (v : JsValue) : bool :=
  match v with
  | JNull | JNumber _ | JBigint _ | JString _ | JBuffer _ => true
  | _ => false
  end.

Definition bound_values (args : Args) : list JsValue :=
  match args with
  | Positional l => l
  | Named o => map snd (map_to_list (args_own o))
  end.

Definition bind_error : JsError := Error "unsupported value".

Definition prepare (h : Hid) (sql : string) (s : state)
  : Result (Hid * string) * state :=
  if known sql then (Ok (h, sql), s)
  else (Throw (SqliteError "syntax error" "SQLITE_ERROR"), s).

Definition raw (st : Hid * string) (s : state) : Result unit * state :=
  if String.eqb (snd st) "SELECT 1" then (Ok tt, s)
  else (Throw (TypeError
          "The raw() method is only for statements that return data"), s).

Definition all (st : Hid * string) (args : Args) (s : state)
  : Result (list (list JsValue)) * state :=
  if forallb bindable (bound_values args) then (Ok [[JBigint 1]], s)
  else (Throw bind_error, s).

Definition run_stmt (st : Hid * string) (args : Args) (s : state)
  : Result RunInfo * state :=
  let '(h, sql) := st in
  let info := {| info_changes := 0; info_lastInsertRowid := rowid s |} in
  if negb (forallb bindable (bound_values args)) then (Throw bind_error, s)
  else if is_begin sql then
    if has_tx h s then
      (Throw (SqliteError "cannot start a transaction within a transaction"
                          "SQLITE_ERROR"), s)
    else (Ok info, {| in_tx := h :: in_tx s; locked := locked s;
                      rowid := rowid s |})
  else if String.eqb sql "COMMIT" then
    if negb (has_tx h s) then
      (Throw (SqliteError "cannot commit - no transaction is active"
                          "SQLITE_ERROR"), s)
    else if locked s then
      (Throw (SqliteError "database is locked" "SQLITE_BUSY"), s)
    else (Ok info, drop_tx h s)
  else if String.eqb sql "ROLLBACK" then
    if negb (has_tx h s) then
      (Throw (SqliteError "cannot rollback - no transaction is active"
                          "SQLITE_ERROR"), s)
    else (Ok info, drop_tx h s)
  else
    (Ok {| info_changes := 1; info_lastInsertRowid := rowid s + 1 |},
     {| in_tx := in_tx s; locked := locked s; rowid := rowid s + 1 |}).

(** The objects that reach the toy engine as prototypes are plain ones,
    below which an assignment makes an own property. *)
Definition foreign_set (p : JsValue) (own : gmap string JsValue)
  (key : string) (value : JsValue) : NamedArgs + string :=
  inl {| args_own := <[ key := value ]> own; args_proto := ProtoForeign p |}.

(** An engine whose disk is full: COMMIT fails, and the failure ends the
    transaction, as SQLite rolls back on its own after such an error. *)
Definition full_error : JsError :=
  SqliteError "database or disk is full" "SQLITE_FULL".

Definition run_full (st : Hid * string) (args : Args) (s : state)
  : Result RunInfo * state :=
  if String.eqb (snd st) "COMMIT" && has_tx (fst st) s
  then (Throw full_error, drop_tx (fst st) s)
  else run_stmt st args s.

Definition engine : Engine := {|
  eng_state := state;
  eng_stmt := Hid * string;
  eng_new := fun _ _ s => (Ok tt, s);
  eng_prepare := prepare;
  eng_safeIntegers := fun _ s => (Ok tt, s);
  eng_raw := raw;
  eng_columns := fun _ s => (Ok ["1"%string], s);
  eng_all := all;
  eng_run := run_stmt;
  eng_exec := fun _ _ s => (Ok tt, s);
  eng_close := drop_tx;
  eng_inTransaction := has_tx;
  rt_is_Object := fun _ => true;
  rt_foreign_set := foreign_set
|}.

(** The same engine over a file that cannot be opened. *)
Definition cantopen_error : JsError :=
  SqliteError "unable to open database file" "SQLITE_CANTOPEN".

Definition unopenable : Engine := {|
  eng_state := state;
  eng_stmt := Hid * string;
  eng_new := fun _ _ s => (Throw cantopen_error, s);
  eng_prepare := prepare;
  eng_safeIntegers := fun _ s => (Ok tt, s);
  eng_raw := raw;
  eng_columns := fun _ s => (Ok ["1"%string], s);
  eng_all := all;
  eng_run := run_stmt;
  eng_exec := fun _ _ s => (Ok tt, s);
  eng_close := drop_tx;
  eng_inTransaction := has_tx;
  rt_is_Object := fun _ => true;
  rt_foreign_set := foreign_set
|}.

Definition full_disk : Engine := {|
  eng_state := state;
  eng_stmt := Hid * string;
  eng_new := fun _ _ s => (Ok tt, s);
  eng_prepare := prepare;
  eng_safeIntegers := fun _ s => (Ok tt, s);
  eng_raw := raw;
  eng_columns := fun _ s => (Ok ["1"%string], s);
  eng_all := all;
  eng_run := run_full;
  eng_exec := fun _ _ s => (Ok tt, s);
  eng_close := drop_tx;
  eng_inTransaction := has_tx;
  rt_is_Object := fun _ => true;
  rt_foreign_set := foreign_set
|}.

(** The BEGIN statements of the modes. *)
Definition transactionModeToBegin (mode : TransactionMode) : Result string :=
  if String.eqb mode "write" then Ok "BEGIN IMMEDIATE"%string
  else if String.eqb mode "read" then Ok "BEGIN TRANSACTION READONLY"%string
  else if String.eqb mode "deferred" then Ok "BEGIN DEFERRED"%string
  else Throw (RangeError "Unknown transaction mode").

Definition world0 (is_locked : bool) : World engine :=
  @Build_World engine {| in_tx := []; locked := is_locked; rowid := 0 |}
               ∅ 0%nat [].

Definition client : Sqlite3Client.t :=
  Sqlite3Client.constructor "/tmp/test.db" IntMode_number.

(** A transaction on the toy engine, as [transaction()] hands it out. *)
Definition tx0 : Sqlite3Transaction.t :=
  {| Sqlite3Transaction.database := 0%nat;
     Sqlite3Transaction.intMode := IntMode_number |}.

Definition begun (is_locked : bool) : World engine :=
  snd (Sqlite3Client.transaction transactionModeToBegin client None
         (world0 is_locked)).

(** The toy transaction after [commit()], after the statement COMMIT was
    run through [execute], and after a [commit()] on a locked database. *)
Definition committed : World engine :=
  snd (Sqlite3Transaction.commit tx0 (begun false)).

Definition ended : World engine :=
  snd (Sqlite3Transaction.execute tx0 (StmtString "COMMIT") (begun false)).

Definition commit_failed : World engine :=
  snd (Sqlite3Transaction.commit tx0 (begun true)).

Definition locked_error : JsError :=
  LibsqlError "database is locked" "SQLITE_BUSY"
    (Some (SqliteError "database is locked" "SQLITE_BUSY")).

(** A transaction on the engine whose disk is full, and the same after a
    [commit()], which fails. *)
Definition begun_full : World full_disk :=
  snd (Sqlite3Client.transaction transactionModeToBegin client None
         (@Build_World full_disk
            {| in_tx := []; locked := false; rowid := 0 |} ∅ 0%nat [])).

Definition commit_full : World full_disk :=
  snd (Sqlite3Transaction.commit tx0 begun_full).

End Toy.

(* ===================================================================== *)
(** ** Vocabulary of the statements                                       *)
(* ===================================================================== *)

Module Spec.

(** The reading of C2 as it is written: decoding succeeds and encoding the
    decoded value gives the engine the integer back. *)
Definition roundtrips_to_integer (mode : IntMode) (v : Z) : Prop :=
  exists host,
    valueFromSql (JBigint v) mode = Ok host
    /\ valueToSql host = Ok (JBigint v).

(** The argument values of a statement. *)
Definition stmt_args (stmt : InStatement) : list JsValue :=
  match stmt with
  | StmtString _ => []
  | StmtObject _ (ArgsArray l) => l
  | StmtObject _ (ArgsObject props) => map snd props
  end.

(** Values that no branch of [valueToSql] singles out. *)
Definition other_value (v : JsValue) : bool :=
  match v with
  | JNull | JString _ | JBuffer _ | JOther _ => true
  | _ => false
  end.


(** The runs of the [try] block of [executeStmt]: the calls it makes on
    the handle, and what the block yields, before errors are mapped. *)
Inductive body_run (db : Hid) (sql : string) (args : Args) (intMode : IntMode)
  : list Event -> Result ResultSet -> Prop :=
  | run_prepare_throws e :
      body_run db sql args intMode
        [EvPrepare db sql (Throw e)] (Throw e)
  | run_safeIntegers_throws e :
      body_run db sql args intMode
        [EvPrepare db sql (Ok tt); EvSafeIntegers db (Throw e)] (Throw e)
  | run_columns_throws e :
      body_run db sql args intMode
        [EvPrepare db sql (Ok tt); EvSafeIntegers db (Ok tt);
         EvRaw db (Ok tt); EvColumns db (Throw e)] (Throw e)
  | run_all_throws cols e :
      body_run db sql args intMode
        [EvPrepare db sql (Ok tt); EvSafeIntegers db (Ok tt);
         EvRaw db (Ok tt); EvColumns db (Ok cols);
         EvAll db args (Throw e)] (Throw e)
  | run_rows cols sqlRows :
      body_run db sql args intMode
        [EvPrepare db sql (Ok tt); EvSafeIntegers db (Ok tt);
         EvRaw db (Ok tt); EvColumns db (Ok cols);
         EvAll db args (Ok sqlRows)]
        (rbind (rmap (fun sqlRow => rowFromSql sqlRow cols intMode) sqlRows)
               (fun rows => Ok (ResultSetImpl cols rows 0 None)))
  | run_run_throws e0 e :
      body_run db sql args intMode
        [EvPrepare db sql (Ok tt); EvSafeIntegers db (Ok tt);
         EvRaw db (Throw e0); EvRun db args (Throw e)] (Throw e)
  | run_run e0 info :
      body_run db sql args intMode
        [EvPrepare db sql (Ok tt); EvSafeIntegers db (Ok tt);
         EvRaw db (Throw e0); EvRun db args (Ok info)]
        (Ok (ResultSetImpl [] [] (info_changes info)
                           (Some (info_lastInsertRowid info)))).

Definition map_error {A} (r : Result A) : Result A :=
  match r with Ok a => Ok a | Throw e => Throw (mapSqliteError e) end.





(** The calls a user can make on a client. *)
Inductive ClientCall : Type :=
  | CallExecute (stmt : InStatement)
  | CallBatch (stmts : list InStatement) (mode : option TransactionMode)
  | CallTransaction (mode : option TransactionMode)
  | CallExecuteMultiple (sql : string)
  | CallClose.

Section Calls.
Context {E : Engine}.
Variable transactionModeToBegin : TransactionMode -> Result string.

(** One call: whether it succeeded, the client after it, the world after
    it. *)
Definition perform (c : Sqlite3Client.t) (op : ClientCall) (w : World E)
  : Result unit * Sqlite3Client.t * World E :=
  match op with
  | CallExecute stmt =>
      let '(r, w') := Sqlite3Client.execute c stmt w in (forget r, c, w')
  | CallBatch stmts mode =>
      let '(r, w') := Sqlite3Client.batch transactionModeToBegin c stmts mode w
      in (forget r, c, w')
  | CallTransaction mode =>
      let '(r, w') := Sqlite3Client.transaction transactionModeToBegin c mode w
      in (forget r, c, w')
  | CallExecuteMultiple sql =>
      let '(r, w') := Sqlite3Client.executeMultiple c sql w in (forget r, c, w')
  | CallClose => (Ok tt, Sqlite3Client.close c, w)
  end.

Fixpoint perform_all (c : Sqlite3Client.t) (ops : list ClientCall)
  (w : World E) : list (Result unit) * World E :=
  match ops with
  | [] => ([], w)
  | op :: ops' =>
      let '(r, c', w') := perform c op w in
      let '(rs, w'') := perform_all c' ops' w' in
      (r :: rs, w'')
  end.

(** What a closed client answers. *)
Definition closed_answer (op : ClientCall) : Result unit :=
  match op with
  | CallClose => Ok tt
  | _ => Throw Sqlite3Client.client_closed_error
  end.

End Calls.

(** *** Vocabulary of the further properties *)

(** A value of the host model that the engine stores as it is: null, text,
    a finite number, a 64-bit integer or a byte buffer. *)
Definition host_value (v : JsValue) : bool :=
  match v with
  | JNull | JString _ | JArrayBuffer _ => true
  | JNumber x => Number_isFinite x
  | JBigint b => (minInteger <=? b) && (b <=? maxInteger)
  | _ => false
  end.

(** What [valueToSql] can hand to the engine: null, text, a number, a
    Buffer, a bigint of 64 bits, or a value of another type. *)
Definition engine_value (e : JsValue) : bool :=
  match e with
  | JNull | JString _ | JBuffer _ | JOther _ | JNumber _ => true
  | JBigint b => (minInteger <=? b) && (b <=? maxInteger)
  | _ => false
  end.




(** The keys a row may own once the cells below index [i] are done. *)
Definition keys_below (columns : list string) (i : nat) (row : Row) : Prop :=
  forall k, hasOwn row k = true ->
    k = "length"%string
    \/ (exists j, (j < i)%nat /\ k = index_key j)
    \/ (exists j, (j < i)%nat /\ k = column_key columns j).

(** Reading a property of a row, and the keys an enumeration of the row
    shows. *)
Definition row_get (row : Row) (key : string) : option JsValue :=
  option_map p_value (getOwn row key).

Definition enumerable_keys (row : Row) : list string :=
  map p_key (List.filter p_enumerable row).

(** The handle an event concerns. *)
Definition event_handle (ev : Event) : Hid :=
  match ev with
  | EvNew h _ _ | EvPrepare h _ _ | EvSafeIntegers h _ | EvRaw h _
  | EvColumns h _ | EvAll h _ _ | EvRun h _ _ | EvExec h _ _
  | EvClose h => h
  end.

(** Events that open or release a handle, or run a script. *)
Definition statement_event (ev : Event) : bool :=
  match ev with
  | EvNew _ _ _ | EvExec _ _ _ | EvClose _ => false
  | _ => true
  end.

Section Handles.
Context {E : Engine}.

(** Handle identities are not reused: every open handle is older than the
    next identity. *)
Definition fresh (w : World E) : Prop :=
  forall h, h ∈ w_open w -> (h < w_next w)%nat.

(** A computation that neither opens nor releases a handle. *)
Definition keeps_handles {A} (m : M E A) : Prop :=
  forall w, w_open (snd (m w)) = w_open w /\ w_next (snd (m w)) = w_next w.

(** A computation that releases handles or opens new ones, and opens them
    only under identities not handed out before. *)
Definition monotone_handles {A} (m : M E A) : Prop :=
  forall w,
    (w_next w <= w_next (snd (m w)))%nat
    /\ forall h, h ∈ w_open (snd (m w)) ->
         h ∈ w_open w \/ (w_next w <= h < w_next (snd (m w)))%nat.

(** The world after a [new Database] that threw. *)
Definition after_failed_open (path : string) (e : JsError)
  (s : eng_state E) (w : World E) : World E :=
  {| w_eng := s; w_open := w_open w; w_next := S (w_next w);
     w_trace := w_trace w ++ [EvNew (w_next w) path (Throw e)] |}.

End Handles.

(** The calls a user can make on a transaction. *)
Inductive TxCall : Type :=
  | TxExecute (stmt : InStatement)
  | TxBatch (stmts : list InStatement)
  | TxExecuteMultiple (sql : string)
  | TxRollback
  | TxCommit
  | TxClose.

(** A call on some client, on some transaction, or [_createClient]. *)
Inductive AnyCall : Type :=
  | OnClient (c : Sqlite3Client.t) (op : ClientCall)
  | OnTransaction (t : Sqlite3Transaction.t) (op : TxCall)
  | OnCreate (config : Create.ExpandedConfig).

Section AnyCalls.
Context {E : Engine}.
Variable transactionModeToBegin : TransactionMode -> Result string.
Variable toLowerCase : string -> string.
Variable JSON_stringify : string -> string.
Variable supportedUrlLink : string.

Definition forgetM {A} (m : M E A) : M E unit :=
  fun w => let '(r, w') := m w in (forget r, w').

Definition perform_tx (t : Sqlite3Transaction.t) (op : TxCall) : M E unit :=
  match op with
  | TxExecute stmt => forgetM (Sqlite3Transaction.execute t stmt)
  | TxBatch stmts => forgetM (Sqlite3Transaction.batch t stmts)
  | TxExecuteMultiple sql => Sqlite3Transaction.executeMultiple t sql
  | TxRollback => Sqlite3Transaction.rollback t
  | TxCommit => Sqlite3Transaction.commit t
  | TxClose => Sqlite3Transaction.close t
  end.

(** The world after a call, and after a sequence of calls. *)
Definition after_call (call : AnyCall) (w : World E) : World E :=
  match call with
  | OnClient c op => snd (perform transactionModeToBegin c op w)
  | OnTransaction t op => snd (perform_tx t op w)
  | OnCreate config =>
      snd (Create._createClient toLowerCase JSON_stringify supportedUrlLink
             config w)
  end.

Definition after_calls (calls : list AnyCall) (w : World E) : World E :=
  fold_left (fun w call => after_call call w) calls w.

End AnyCalls.

(** The connection targets [_createClient] accepts. *)
Definition valid_target (toLowerCase : string -> string)
  (config : Create.ExpandedConfig) : bool :=
  String.eqb (Create.scheme config) "file"
  && match Create.authority config with
     | None => true
     | Some a =>
         (String.eqb (toLowerCase (Create.host a)) EmptyString
          || String.eqb (toLowerCase (Create.host a)) "localhost")
         && match Create.port a with Some _ => false | None => true end
         && match Create.userinfo a with Some _ => false | None => true end
     end.

End Spec.
Export Spec.

(* ===================================================================== *)
(** * Properties                                                          *)
(* ===================================================================== *)

(** ** The model at work *)

Example Number_rounds_past_2_53 :
  number_to_Z (Number_of_bigint 9007199254740993) = Some 9007199254740992.
Proof. reflexivity. Qed.

Example decode_number_at_the_bounds :
  valueFromSql (JBigint 9007199254740991) IntMode_number
    = Ok (JNumber (S754_finite false 9007199254740991 0))
  /\ is_Ok (valueFromSql (JBigint 9007199254740992) IntMode_number) = false
  /\ is_Ok (valueFromSql (JBigint (-9007199254740992)) IntMode_number) = false.
Proof. repeat split; reflexivity. Qed.

Example decode_string_negative :
  valueFromSql (JBigint (-42)) IntMode_string = Ok (JString "-42").
Proof. reflexivity. Qed.

(** Two columns of one name: the name reads the first of them. *)
Example row_first_column_wins :
  rowFromSql [JBigint 1; JBigint 2] ["a"; "a"]%string IntMode_bigint
  = Ok [ {| p_key := "length";
            p_value := JNumber (Number_of_bigint 2); p_enumerable := false |};
         {| p_key := "0"; p_value := JBigint 1; p_enumerable := false |};
         {| p_key := "a"; p_value := JBigint 1; p_enumerable := true |};
         {| p_key := "1"; p_value := JBigint 2; p_enumerable := false |} ].
Proof. reflexivity. Qed.

(** A first column named "1" already owns the key of the second index. *)
Example row_index_named_column :
  rowFromSql [JBigint 1; JBigint 2] ["1"; "b"]%string IntMode_bigint
  = Throw (TypeError "Cannot redefine property: 1").
Proof. reflexivity. Qed.

(** When the cell under the index 1 holds what the column named "1"
    already gave that key, the index is defined over the column's
    property, which stays enumerable. *)
Example row_index_key_shown :
  rowFromSql [JBigint 5; JBigint 5] ["1"; "b"]%string IntMode_bigint
  = Ok [ {| p_key := "length";
            p_value := JNumber (Number_of_bigint 2); p_enumerable := false |};
         {| p_key := "0"; p_value := JBigint 5; p_enumerable := false |};
         {| p_key := "1"; p_value := JBigint 5; p_enumerable := true |};
         {| p_key := "b"; p_value := JBigint 5; p_enumerable := true |} ].
Proof. reflexivity. Qed.

Example named_arguments_collide (E : Engine) :
  encodeStmt (StmtObject "SELECT $id"
                (ArgsObject [("@id"%string, JBoolean true);
                             ("id"%string, JBigint 2)]))
  = Ok ("SELECT $id"%string,
        Named {| args_own := {[ "id"%string := JBigint 2 ]};
                 args_proto := ProtoObject |}).
Proof. vm_compute. reflexivity. Qed.

(** A null bound under [__proto__] takes the prototype away, and the next
    value bound under that name becomes an own property; a number alone
    binds nothing. *)
Example named_arguments_proto (E : Engine) :
  encodeStmt (StmtObject "SELECT 1"
                (ArgsObject [(":__proto__"%string, JNull);
                             ("$__proto__"%string, JBigint 5)]))
  = Ok ("SELECT 1"%string,
        Named {| args_own := {[ "__proto__"%string := JBigint 5 ]};
                 args_proto := ProtoNull |})
  /\ encodeStmt (StmtObject "SELECT 1"
                   (ArgsObject [("$__proto__"%string, JBigint 5)]))
     = Ok ("SELECT 1"%string, Named empty_object).
Proof. split; vm_compute; reflexivity. Qed.

Example select_on_the_toy_engine :
  fst (Sqlite3Client.execute Toy.client (StmtString "SELECT 1")
         (Toy.world0 false))
  = Ok (ResultSetImpl ["1"%string]
          [[ {| p_key := "length";
                p_value := JNumber (Number_of_bigint 1);
                p_enumerable := false |};
             {| p_key := "0"; p_value := JNumber (Number_of_bigint 1);
                p_enumerable := false |};
             {| p_key := "1"; p_value := JNumber (Number_of_bigint 1);
                p_enumerable := true |} ]]
          0 None).
Proof. vm_compute. reflexivity. Qed.

(** ** Numbers: integers below 2^53 convert exactly *)

Section NumberExact.

Lemma digits2_pos_iter_xO (m k : positive) :
  digits2_pos (Pos.iter xO m k) = (digits2_pos m + k)%positive.
Proof.
  induction k as [|k IH] using Pos.peano_ind.
  - simpl. lia.
  - rewrite Pos.iter_succ. simpl. rewrite IH. lia.
Qed.

Lemma pos_iter_xO_value (m k : positive) :
  Z.pos (Pos.iter xO m k) = Z.pos m * 2 ^ Z.pos k.
Proof.
  induction k as [|k IH] using Pos.peano_ind.
  - simpl. lia.
  - rewrite Pos.iter_succ, Pos2Z.inj_succ, Z.pow_succ_r by lia.
    rewrite Pos2Z.inj_xO, IH. lia.
Qed.

Lemma digits2_pos_lower (m : positive) :
  2 ^ (Z.pos (digits2_pos m) - 1) <= Z.pos m.
Proof.
  induction m as [m IH|m IH|]; simpl digits2_pos.
  - rewrite Pos2Z.inj_succ.
    replace (Z.succ (Z.pos (digits2_pos m)) - 1)
      with (Z.succ (Z.pos (digits2_pos m) - 1)) by lia.
    rewrite Z.pow_succ_r by lia. lia.
  - rewrite Pos2Z.inj_succ.
    replace (Z.succ (Z.pos (digits2_pos m)) - 1)
      with (Z.succ (Z.pos (digits2_pos m) - 1)) by lia.
    rewrite Z.pow_succ_r by lia. lia.
  - simpl. lia.
Qed.

Lemma digits2_pos_le_53 (m : positive) :
  Z.pos m <= maxSafeBigint -> Z.pos (digits2_pos m) <= 53.
Proof.
  intros Hm. unfold maxSafeBigint in Hm.
  destruct (Z_le_gt_dec (Z.pos (digits2_pos m)) 53) as [?|Hgt]; [assumption|].
  pose proof (digits2_pos_lower m) as Hlow.
  assert (2 ^ 53 <= 2 ^ (Z.pos (digits2_pos m) - 1))
    by (apply Z.pow_le_mono_r; lia).
  change (2 ^ 53) with 9007199254740992 in *. lia.
Qed.

(** A mantissa of exactly 53 bits with a small exponent is already in
    binary64 format: rounding leaves it alone. *)
Lemma binary_round_aux_53 (s : bool) (m : positive) (e : Z) :
  Z.pos (digits2_pos m) = 53 -> -1074 <= e <= 971 ->
  binary_round_aux prec emax s (Z.pos m) e loc_Exact = S754_finite s m e.
Proof.
  intros Hd He.
  assert (Hs : shr_fexp prec emax (Z.pos m) e loc_Exact
               = ({| shr_m := Z.pos m; shr_r := false; shr_s := false |}, e)).
  { unfold shr_fexp, fexp, emin, prec, emax. simpl Zdigits2. rewrite Hd.
    replace (Z.max (53 + e - 53) (3 - 1024 - 53) - e) with 0 by lia.
    reflexivity. }
  unfold binary_round_aux. rewrite Hs. simpl. rewrite Hs. simpl.
  unfold prec, emax.
  destruct (Z.leb_spec e (1024 - 53)); [reflexivity | lia].
Qed.

Lemma binary_round_small (s : bool) (m : positive) :
  Z.pos (digits2_pos m) <= 53 ->
  exists m' e',
    binary_round prec emax s m 0 = S754_finite s m' e'
    /\ -52 <= e' <= 0
    /\ Z.pos m' = Z.pos m * 2 ^ (- e')
    /\ Z.pos (digits2_pos m') = 53.
Proof.
  intros Hd. unfold binary_round, shl_align, fexp, emin, prec, emax.
  pose proof (Pos2Z.is_pos (digits2_pos m)) as Hpos.
  replace (Z.max (Z.pos (digits2_pos m) + 0 - 53) (3 - 1024 - 53) - 0)
    with (Z.pos (digits2_pos m) - 53) by lia.
  replace (Z.max (Z.pos (digits2_pos m) + 0 - 53) (3 - 1024 - 53))
    with (Z.pos (digits2_pos m) - 53) by lia.
  destruct (Z.pos (digits2_pos m) - 53) as [|p|p] eqn:Hdiff.
  - exists m, 0. split; [|split; [lia|split; [simpl; lia|lia]]].
    apply binary_round_aux_53; lia.
  - lia.
  - assert (Hdig : Z.pos (digits2_pos (Pos.iter xO m p)) = 53)
      by (rewrite digits2_pos_iter_xO; lia).
    exists (Pos.iter xO m p), (Z.neg p). split; [|split; [|split]].
    + apply binary_round_aux_53; [assumption|lia].
    + lia.
    + rewrite pos_iter_xO_value. reflexivity.
    + assumption.
Qed.

Lemma valid_binary_53 (s : bool) (m : positive) (e : Z) :
  Z.pos (digits2_pos m) = 53 -> -52 <= e <= 0 ->
  valid_binary prec emax (S754_finite s m e) = true.
Proof.
  intros Hd He.
  unfold valid_binary, bounded, canonical_mantissa, fexp, emin, prec, emax.
  rewrite Hd. apply andb_true_iff. split.
  - apply Z.eqb_eq. lia.
  - apply Z.leb_le. lia.
Qed.

Lemma number_to_Z_finite (s : bool) (m m' : positive) (e' : Z) :
  -52 <= e' <= 0 -> Z.pos m' = Z.pos m * 2 ^ (- e') ->
  number_to_Z (S754_finite s m' e') = Some (cond_Zopp s (Z.pos m)).
Proof.
  intros He Hm. unfold number_to_Z.
  assert (Hpow : 0 < 2 ^ (- e')) by (apply Z.pow_pos_nonneg; lia).
  destruct (Z.leb_spec 0 e') as [H0|H0].
  - assert (e' = 0) by lia. subst e'. simpl in Hm. rewrite Hm.
    simpl. do 2 f_equal. lia.
  - rewrite Hm, Z.mod_mul by lia. simpl.
    rewrite Z.div_mul by lia. reflexivity.
Qed.

(** [Number(b)] is exact for every safe integer. *)
Lemma Number_of_bigint_exact (b : Z) :
  minSafeBigint <= b <= maxSafeBigint ->
  number_to_Z (Number_of_bigint b) = Some b
  /\ valid_binary prec emax (Number_of_bigint b) = true.
Proof.
  intros [Hlo Hhi]. unfold Number_of_bigint, binary_normalize.
  destruct b as [|m|m].
  - split; reflexivity.
  - destruct (binary_round_small false m) as (m' & e' & -> & He & Hm & Hd).
    { apply digits2_pos_le_53. assumption. }
    split; [apply (number_to_Z_finite false m m' e' He Hm)|].
    apply valid_binary_53; assumption.
  - destruct (binary_round_small true m) as (m' & e' & -> & He & Hm & Hd).
    { apply digits2_pos_le_53. unfold minSafeBigint, maxSafeBigint in *. lia. }
    split; [apply (number_to_Z_finite true m m' e' He Hm)|].
    apply valid_binary_53; assumption.
Qed.

End NumberExact.

(** ** The value codec *)

Section CodecProperties.

(** The decimal rendering of a bigint reads back as the same integer. *)
Lemma bigint_of_String_of_bigint (b : Z) :
  bigint_of_String (String_of_bigint b) = Some b.
Proof.
  unfold bigint_of_String, String_of_bigint.
  rewrite NilZero.isi.
  - simpl. f_equal. apply DecimalZ.of_to.
  - destruct b; simpl; try discriminate.
    intros [= H]. exact (Unsigned.to_uint_nonnil _ H).
  - destruct b; simpl; try discriminate.
    intros [= H]. exact (Unsigned.to_uint_nonnil _ H).
Qed.

Lemma safe_range_abs (v : Z) :
  Z.abs v <= 2 ^ 53 - 1 <-> minSafeBigint <= v <= maxSafeBigint.
Proof.
  unfold minSafeBigint, maxSafeBigint.
  change (2 ^ 53 - 1) with 9007199254740991. lia.
Qed.

Lemma valueFromSql_number_cases (v : Z) :
  valueFromSql (JBigint v) IntMode_number =
    if (v <? minSafeBigint) || (v >? maxSafeBigint)
    then Throw (RangeError
      "Received integer which cannot be safely represented as a JavaScript number")
    else Ok (JNumber (Number_of_bigint v)).
Proof. reflexivity. Qed.

Lemma safe_range_test (v : Z) :
  (v <? minSafeBigint) || (v >? maxSafeBigint) = false
  <-> minSafeBigint <= v <= maxSafeBigint.
Proof.
  rewrite orb_false_iff, Z.ltb_ge, Z.gtb_ltb, Z.ltb_ge. tauto.
Qed.

(** C1.  Decoding an integer under IntMode "number": it succeeds, with the
    number that denotes exactly that integer, if and only if
    |v| <= 2^53 - 1; it throws the RangeError if and only if v lies outside
    that range.  It holds for every integer, so for every 64-bit one. *)
Theorem valueFromSql_number_iff (v : Z) :
  ((exists x, valueFromSql (JBigint v) IntMode_number = Ok (JNumber x)
              /\ number_to_Z x = Some v
              /\ valid_binary prec emax x = true)
   <-> Z.abs v <= 2 ^ 53 - 1)
  /\ (valueFromSql (JBigint v) IntMode_number
       = Throw (RangeError
           "Received integer which cannot be safely represented as a JavaScript number")
     <-> ~ Z.abs v <= 2 ^ 53 - 1).
Proof.
  rewrite safe_range_abs, valueFromSql_number_cases.
  destruct ((v <? minSafeBigint) || (v >? maxSafeBigint)) eqn:Htest.
  - assert (Hout : ~ minSafeBigint <= v <= maxSafeBigint).
    { intros Hin. apply safe_range_test in Hin. congruence. }
    split; split.
    + intros (x & Hx & _). discriminate.
    + intros Hin. contradiction.
    + intros _. exact Hout.
    + reflexivity.
  - apply safe_range_test in Htest.
    destruct (Number_of_bigint_exact v Htest) as [Hval Hvalid].
    split; split.
    + intros _. exact Htest.
    + intros _. exists (Number_of_bigint v). auto.
    + discriminate.
    + intros Hout. contradiction.
Qed.

(** C2, counterexample.  Under IntMode "string" the integer 5 decodes to the
    string "5", and encoding that string hands the engine the text "5", not
    the integer 5. *)
Lemma string_mode_does_not_roundtrip :
  int64 5
  /\ valueFromSql (JBigint 5) IntMode_string = Ok (JString "5")
  /\ valueToSql (JString "5") = Ok (JString "5")
  /\ ~ roundtrips_to_integer IntMode_string 5.
Proof.
  split; [unfold int64, minInteger, maxInteger; lia|].
  split; [reflexivity|]. split; [reflexivity|].
  intros (host & Hdec & Henc).
  change (valueFromSql (JBigint 5) IntMode_string) with (Ok (JString "5"))
    in Hdec.
  injection Hdec as <-. discriminate Henc.
Qed.

(** C2, amended.  For every 64-bit integer v: under "bigint" decoding gives
    the bigint v and encoding gives the integer v back; under "string"
    decoding gives the decimal digits of v, which read back as v, and
    encoding passes that string on unchanged, as text. *)
Theorem valueFromSql_bigint_string_roundtrip (v : Z) (Hv : int64 v) :
  (valueFromSql (JBigint v) IntMode_bigint = Ok (JBigint v)
   /\ valueToSql (JBigint v) = Ok (JBigint v)
   /\ roundtrips_to_integer IntMode_bigint v)
  /\ (valueFromSql (JBigint v) IntMode_string = Ok (JString (String_of_bigint v))
     /\ bigint_of_String (String_of_bigint v) = Some v
     /\ valueToSql (JString (String_of_bigint v))
        = Ok (JString (String_of_bigint v))).
Proof.
  assert (Henc : valueToSql (JBigint v) = Ok (JBigint v)).
  { unfold valueToSql. destruct Hv as [Hlo Hhi].
    replace ((v <? minInteger) || (v >? maxInteger)) with false; [reflexivity|].
    symmetry. rewrite orb_false_iff, Z.ltb_ge, Z.gtb_ltb, Z.ltb_ge. lia. }
  split.
  - split; [reflexivity|]. split; [exact Henc|].
    exists (JBigint v). split; [reflexivity|exact Henc].
  - split; [reflexivity|]. split; [apply bigint_of_String_of_bigint|reflexivity].
Qed.

Lemma valueFromSql_bigint_string_roundtrip_witness :
  int64 (-9223372036854775808)
  /\ valueFromSql (JBigint (-9223372036854775808)) IntMode_string
     = Ok (JString "-9223372036854775808")
  /\ roundtrips_to_integer IntMode_bigint (-9223372036854775808).
Proof.
  assert (H : int64 (-9223372036854775808))
    by (unfold int64, minInteger, maxInteger; lia).
  split; [exact H|].
  pose proof (valueFromSql_bigint_string_roundtrip _ H) as [(_ & _ & Hb) (Hs & _)].
  split; [exact Hs | exact Hb].
Defined.

End CodecProperties.

(** ** Statement execution: what a run of [executeStmt] can look like *)

Section ExecProperties.
Context {E : Engine}.
Local Arguments rowFromSql : simpl never.
Local Arguments rmap : simpl never.

Ltac run_calls :=
  repeat match goal with
  | |- context [eng_prepare E ?a ?b ?c] =>
      destruct (eng_prepare E a b c) as [[?|?] ?]; cbn
  | |- context [eng_safeIntegers E ?a ?b] =>
      destruct (eng_safeIntegers E a b) as [[[]|?] ?]; cbn
  | |- context [eng_raw E ?a ?b] =>
      destruct (eng_raw E a b) as [[[]|?] ?]; cbn
  | |- context [eng_columns E ?a ?b] =>
      destruct (eng_columns E a b) as [[?|?] ?]; cbn
  | |- context [eng_all E ?a ?b ?c] =>
      destruct (eng_all E a b c) as [[?|?] ?]; cbn
  | |- context [eng_run E ?a ?b ?c] =>
      destruct (eng_run E a b c) as [[?|?] ?]; cbn
  end.

(** Every run of the block is one of the runs above; it only appends to the
    log and leaves the [open] flags alone. *)
Lemma executeStmt_body_run db sql args intMode (w : World E) :
  exists evs,
    body_run db sql args intMode evs
             (fst (executeStmt_body db sql args intMode w))
    /\ w_trace (snd (executeStmt_body db sql args intMode w))
       = w_trace w ++ evs
    /\ w_open (snd (executeStmt_body db sql args intMode w)) = w_open w
    /\ w_next (snd (executeStmt_body db sql args intMode w)) = w_next w.
Proof.
  unfold executeStmt_body, bind, call, try_catch, ret, lift. cbn.
  run_calls; rewrite <- ?app_assoc; cbn.
  all: try (eexists; split; [econstructor|split; [reflexivity|split; reflexivity]]).
  match goal with
  | |- context [rmap (fun sqlRow => rowFromSql sqlRow ?c _) ?l] =>
      pose proof (run_rows db sql args intMode c l) as H;
      destruct (rmap (fun sqlRow => rowFromSql sqlRow c intMode) l); cbn in *
  end.
  all: eexists; split; [exact H|split; [reflexivity|split; reflexivity]].
Qed.

(** [executeStmt] as a whole: an encoding error leaves the world as it
    was; otherwise the block runs and its error, if any, is mapped. *)
Lemma executeStmt_run db stmt intMode (w : World E) :
  match encodeStmt stmt with
  | Throw e => executeStmt db stmt intMode w = (Throw e, w)
  | Ok (sql, args) =>
      exists evs r,
        body_run db sql args intMode evs r
        /\ fst (executeStmt db stmt intMode w) = map_error r
        /\ w_trace (snd (executeStmt db stmt intMode w)) = w_trace w ++ evs
        /\ w_open (snd (executeStmt db stmt intMode w)) = w_open w
        /\ w_next (snd (executeStmt db stmt intMode w)) = w_next w
  end.
Proof.
  unfold executeStmt, bind, lift, try_catch, throw.
  destruct (encodeStmt stmt) as [[sql args]|e]; [|reflexivity].
  destruct (executeStmt_body_run db sql args intMode w)
    as (evs & Hrun & Htr & Hop & Hnx).
  exists evs, (fst (executeStmt_body db sql args intMode w)).
  cbn [fst snd].
  destruct (executeStmt_body db sql args intMode w) as [[rs|e] w1];
    cbn in *; auto.
Qed.

Lemma executeStmt_open db stmt intMode (w : World E) :
  w_open (snd (executeStmt db stmt intMode w)) = w_open w.
Proof.
  pose proof (executeStmt_run db stmt intMode w) as H.
  destruct (encodeStmt stmt) as [[sql args]|e].
  - destruct H as (? & ? & _ & _ & _ & Hop & _). exact Hop.
  - rewrite H. reflexivity.
Qed.

End ExecProperties.

(** ** Argument encoding *)

Section EncodeProperties.

Lemma valueToSql_error_kind (v : JsValue) (e : JsError) :
  valueToSql v = Throw e -> is_RangeError e || is_TypeError e = true.
Proof.
  destruct v as [| |b|x|b|s|bytes|bytes|time|tag]; cbn; try discriminate.
  - intros [= <-]. reflexivity.
  - destruct (negb (Number_isFinite x)); [intros [= <-]; reflexivity|discriminate].
  - destruct ((b <? minInteger) || (b >? maxInteger));
      [intros [= <-]; reflexivity|discriminate].
Qed.

Lemma rmap_throws {A B} (f : A -> Result B) (l : list A) (a : A) (e0 : JsError) :
  In a l -> f a = Throw e0 ->
  exists a' e, In a' l /\ f a' = Throw e /\ rmap f l = Throw e.
Proof.
  induction l as [|x l IH]; intros Hin Hf; [contradiction|].
  cbn. destruct (f x) as [b|e] eqn:Hx.
  - destruct Hin as [->|Hin]; [congruence|].
    destruct (IH Hin Hf) as (a' & e & Hin' & Hf' & Hr).
    exists a', e. cbn. rewrite Hr. auto.
  - exists x, e. cbn. auto.
Qed.

Lemma obj_set_error_kind {E : Engine} (args : NamedArgs) (key : string)
  (value : JsValue) (e : JsError) :
  obj_set args key value = Throw e -> is_TypeError e = true.
Proof.
  unfold obj_set.
  destruct (args_own args !! key); [discriminate|].
  destruct (args_proto args) as [| |p].
  - destruct (String.eqb key "__proto__"); [|discriminate].
    destruct value; try discriminate; destruct (is_Object _); discriminate.
  - discriminate.
  - destruct (rt_foreign_set E p (args_own args) key value);
      [discriminate|intros [= <-]; reflexivity].
Qed.

Lemma encodeNamed_error_kind {E : Engine} (props : list (string * JsValue))
  (acc : NamedArgs) (e : JsError) :
  encodeNamed props acc = Throw e -> is_RangeError e || is_TypeError e = true.
Proof.
  revert acc. induction props as [|[name x] props IH]; intros acc;
    [discriminate|].
  cbn. destruct (valueToSql x) as [b|e1] eqn:Hx; cbn.
  - destruct (obj_set acc (argName name) b) as [acc'|e2] eqn:Hs; cbn.
    + apply IH.
    + intros [= <-]. rewrite (obj_set_error_kind _ _ _ _ Hs).
      apply orb_true_r.
  - intros [= <-]. exact (valueToSql_error_kind x e1 Hx).
Qed.

Lemma encodeNamed_throws {E : Engine} (props : list (string * JsValue))
  (acc : NamedArgs) (v : JsValue) (e0 : JsError) :
  In v (map snd props) -> valueToSql v = Throw e0 ->
  exists e, encodeNamed props acc = Throw e.
Proof.
  revert acc. induction props as [|[name x] props IH]; intros acc Hin Hf;
    [contradiction|].
  cbn. destruct (valueToSql x) as [b|e] eqn:Hx; cbn.
  - destruct Hin as [Heq|Hin]; [cbn in Heq; congruence|].
    destruct (obj_set acc (argName name) b) as [acc'|e2]; cbn.
    + exact (IH acc' Hin Hf).
    + exists e2. reflexivity.
  - exists e. reflexivity.
Qed.

Lemma encodeStmt_throws {E : Engine} (stmt : InStatement) (v : JsValue)
  (e0 : JsError) :
  In v (stmt_args stmt) -> valueToSql v = Throw e0 ->
  exists e, encodeStmt stmt = Throw e
            /\ is_RangeError e || is_TypeError e = true.
Proof.
  destruct stmt as [sql|sql [l|props]]; cbn; intros Hin Hf; [contradiction| |].
  - destruct (rmap_throws valueToSql l v e0 Hin Hf) as (v' & e & _ & Hv' & ->).
    exists e. split; [reflexivity|]. exact (valueToSql_error_kind v' e Hv').
  - destruct (encodeNamed_throws props empty_object v e0 Hin Hf) as (e & He).
    rewrite He. exists e. split; [reflexivity|].
    exact (encodeNamed_error_kind _ _ _ He).
Qed.

(** C4, counterexample.  A standalone [execute] opens its handle before the
    arguments are encoded: with the argument [undefined] the TypeError is
    thrown after the engine was asked to open the database, and the handle
    is closed on the way out. *)
Lemma encoding_failure_after_engine_call :
  let stmt := StmtObject "SELECT 1" (ArgsArray [JUndefined]) in
  let out := Sqlite3Client.execute Toy.client stmt (Toy.world0 false) in
  fst out
    = Throw (TypeError "undefined cannot be passed as argument to the database")
  /\ w_trace (snd out)
     = [EvNew 0%nat "/tmp/test.db" (Ok tt); EvClose 0%nat]
  /\ w_trace (snd out) <> w_trace (Toy.world0 false).
Proof.
  cbv zeta. split; [vm_compute; reflexivity|].
  split; [vm_compute; reflexivity|].
  vm_compute. discriminate.
Qed.

(** C4, amended.  [valueToSql] follows the table: a finite number passes, a
    non-finite one throws a RangeError; a bigint within the signed 64-bit
    range passes, one outside throws a RangeError; true and false become
    the integers 1 and 0; a timestamp becomes the number of its millisecond
    epoch, exactly; [undefined] throws a TypeError; a byte buffer becomes a
    blob of the same bytes; every other value passes unchanged.  When an
    argument of a statement fails to encode, [executeStmt] throws a
    RangeError or TypeError and makes no call on the handle: the world,
    log included, is as before. *)
Theorem valueToSql_table :
  (forall x, valueToSql (JNumber x) =
     if Number_isFinite x then Ok (JNumber x)
     else Throw (RangeError
       "Only finite numbers (not Infinity or NaN) can be passed as arguments"))
  /\ (forall b, valueToSql (JBigint b) =
       if (minInteger <=? b) && (b <=? maxInteger) then Ok (JBigint b)
       else Throw (RangeError
         "bigint is too large to be represented as a 64-bit integer and passed as argument"))
  /\ valueToSql (JBoolean true) = Ok (JBigint 1)
  /\ valueToSql (JBoolean false) = Ok (JBigint 0)
  /\ (forall t, valueToSql (JDate (Some t)) = Ok (JNumber (Number_of_bigint t)))
  /\ (forall t, Z.abs t <= 8640000000000000 ->
       number_to_Z (Number_of_bigint t) = Some t)
  /\ valueToSql JUndefined
     = Throw (TypeError "undefined cannot be passed as argument to the database")
  /\ (forall bytes, valueToSql (JArrayBuffer bytes) = Ok (JBuffer bytes))
  /\ (forall v, other_value v = true -> valueToSql v = Ok v)
  /\ (forall (E : Engine) db stmt intMode (w : World E) v e0,
       In v (stmt_args stmt) -> valueToSql v = Throw e0 ->
       exists e, executeStmt db stmt intMode w = (Throw e, w)
                 /\ is_RangeError e || is_TypeError e = true).
Proof.
  repeat split; try reflexivity.
  - intros x. cbn. destruct (Number_isFinite x); reflexivity.
  - intros b. cbn.
    destruct (Z.ltb_spec b minInteger), (Z.leb_spec minInteger b); try lia;
      cbn; [reflexivity|].
    rewrite Z.gtb_ltb.
    destruct (Z.ltb_spec maxInteger b), (Z.leb_spec b maxInteger); try lia;
      reflexivity.
  - intros t Ht. apply Number_of_bigint_exact.
    unfold minSafeBigint, maxSafeBigint. lia.
  - intros v Hv. destruct v; try discriminate; reflexivity.
  - intros E db stmt intMode w v e0 Hin Hv.
    destruct (encodeStmt_throws stmt v e0 Hin Hv) as (e & Henc & Hkind).
    exists e. split; [|exact Hkind].
    pose proof (executeStmt_run db stmt intMode w) as H.
    rewrite Henc in H. exact H.
Qed.

Lemma valueToSql_table_witness :
  exists e,
    executeStmt (E := Toy.engine) 0%nat
      (StmtObject "SELECT 1" (ArgsObject [("a"%string, JBigint 1);
                                          ("b"%string, JNumber S754_nan)]))
      IntMode_number (Toy.world0 false)
    = (Throw e, Toy.world0 false)
    /\ is_RangeError e || is_TypeError e = true.
Proof.
  destruct valueToSql_table as (_ & _ & _ & _ & _ & _ & _ & _ & _ & H).
  apply (H Toy.engine 0%nat _ IntMode_number (Toy.world0 false)
           (JNumber S754_nan)
           (RangeError
              "Only finite numbers (not Infinity or NaN) can be passed as arguments")).
  - cbn. right. left. reflexivity.
  - reflexivity.
Defined.

(** *** Named arguments *)






End EncodeProperties.

(** ** Results and errors of [executeStmt] *)

Section ResultProperties.
Context {E : Engine}.


End ResultProperties.


(** *** Errors *)

Section ErrorProperties.
Context {E : Engine}.






End ErrorProperties.



(** ** The client after [close()] *)

Section ClientProperties.
Context {E : Engine}.
Variable transactionModeToBegin : TransactionMode -> Result string.

Lemma perform_closed (c : Sqlite3Client.t) (op : ClientCall) (w : World E) :
  Sqlite3Client.closed c = true ->
  perform transactionModeToBegin c op w = (closed_answer op, Sqlite3Client.close c, w)
  /\ Sqlite3Client.close c = c.
Proof.
  intros Hc. assert (Hid : Sqlite3Client.close c = c).
  { destruct c as [p m cl]. cbn in Hc. subst cl. reflexivity. }
  split; [|exact Hid]. rewrite Hid.
  destruct op; cbn;
    unfold Sqlite3Client.execute, Sqlite3Client.batch,
      Sqlite3Client.transaction, Sqlite3Client.executeMultiple,
      bind, Sqlite3Client.checkNotClosed;
    rewrite ?Hc; cbn; rewrite ?Hid; reflexivity.
Qed.

(** C6.  Once [close()] was called, [execute], [batch], [transaction] and
    [executeMultiple] all throw the LibsqlError with code CLIENT_CLOSED and
    leave the world, log of engine calls included, untouched; and so does
    every later sequence of calls on that client. *)
Theorem closed_client_rejects (c : Sqlite3Client.t) (w : World E) :
  let c' := Sqlite3Client.close c in
  Sqlite3Client.client_closed_error
    = LibsqlError "The client is closed" "CLIENT_CLOSED" None
  /\ (forall stmt,
       Sqlite3Client.execute c' stmt w
       = (Throw Sqlite3Client.client_closed_error, w))
  /\ (forall stmts mode,
       Sqlite3Client.batch transactionModeToBegin c' stmts mode w
       = (Throw Sqlite3Client.client_closed_error, w))
  /\ (forall mode,
       Sqlite3Client.transaction transactionModeToBegin c' mode w
       = (Throw Sqlite3Client.client_closed_error, w))
  /\ (forall sql,
       Sqlite3Client.executeMultiple c' sql w
       = (Throw Sqlite3Client.client_closed_error, w))
  /\ (forall ops, perform_all transactionModeToBegin c' ops w = (map closed_answer ops, w)).
Proof.
  cbv zeta. split; [reflexivity|].
  repeat split; try reflexivity.
  intros ops. assert (Hc : Sqlite3Client.closed (Sqlite3Client.close c) = true)
    by reflexivity.
  revert Hc. generalize (Sqlite3Client.close c). clear c.
  induction ops as [|op ops IH]; intros c Hc; [reflexivity|].
  cbn [perform_all map].
  destruct (perform_closed c op w Hc) as [-> Hid].
  rewrite Hid, (IH c Hc). reflexivity.
Qed.

End ClientProperties.

(** ** Transactions *)

Module TxFacts.
Import Sqlite3Transaction.

Section Guard.
Context {E : Engine}.

Lemma db_open_close db (w : World E) :
  db_open db (snd (db_close db w)) = false.
Proof.
  unfold db_open, db_close. cbn. apply bool_decide_eq_false.
  rewrite elem_of_difference, elem_of_singleton. tauto.
Qed.

Lemma checkNotClosed_fails (this : t) (w : World E) :
  db_open (database this) w = false
  \/ db_inTransaction (database this) w = false ->
  checkNotClosed this w = (Throw transaction_closed_error, w).
Proof.
  intros H. unfold checkNotClosed.
  destruct H as [-> | ->]; [reflexivity|].
  rewrite orb_true_r. reflexivity.
Qed.

Lemma checkNotClosed_passes (this : t) (w : World E) :
  db_open (database this) w = true ->
  db_inTransaction (database this) w = true ->
  checkNotClosed this w = (Ok tt, w).
Proof.
  intros Ho Ht. unfold checkNotClosed. rewrite Ho, Ht. reflexivity.
Qed.

Lemma mapM_app {A B} (f : A -> M E B) (l1 l2 : list A) (w : World E) :
  mapM f (l1 ++ l2) w =
    match mapM f l1 w with
    | (Ok bs, w1) =>
        match mapM f l2 w1 with
        | (Ok bs', w2) => (Ok (bs ++ bs'), w2)
        | (Throw e, w2) => (Throw e, w2)
        end
    | (Throw e, w1) => (Throw e, w1)
    end.
Proof.
  revert w. induction l1 as [|a l1 IH]; intros w; cbn [mapM app].
  - unfold ret. destruct (mapM f l2 w) as [[bs'|e] w2]; reflexivity.
  - unfold bind, ret. destruct (f a w) as [[b|e] w1]; [|reflexivity].
    rewrite IH.
    destruct (mapM f l1 w1) as [[bs|e] w2]; [|reflexivity].
    destruct (mapM f l2 w2) as [[bs'|e] w3]; reflexivity.
Qed.

(** C3, amended.  When the handle is no longer open or the engine reports
    no transaction in progress, [execute], [executeMultiple] and [commit]
    throw the LibsqlError with code TRANSACTION_CLOSED and leave the world,
    log of engine calls included, as it was.  [batch] makes the check
    before each of its statements: it throws the same error, with nothing
    more done on the engine, as soon as the check fails, before the first
    statement as well as later on; a batch without statements makes no
    check, returns no results and does nothing on the engine. *)
Theorem transaction_guard (this : t) (w : World E) :
  db_open (database this) w = false
  \/ db_inTransaction (database this) w = false ->
  transaction_closed_error
    = LibsqlError "The transaction is closed" "TRANSACTION_CLOSED" None
  /\ (forall stmt, execute this stmt w = (Throw transaction_closed_error, w))
  /\ (forall sql,
       executeMultiple this sql w = (Throw transaction_closed_error, w))
  /\ commit this w = (Throw transaction_closed_error, w)
  /\ (forall stmt stmts,
       batch this (stmt :: stmts) w = (Throw transaction_closed_error, w))
  /\ (forall before stmt after w0 rs,
       batch this before w0 = (Ok rs, w) ->
       batch this (before ++ stmt :: after) w0
       = (Throw transaction_closed_error, w))
  /\ batch this [] w = (Ok [], w).
Proof.
  intros Hg. pose proof (checkNotClosed_fails this w Hg) as Hc.
  split; [reflexivity|].
  assert (Hcons : forall stmt stmts,
            batch this (stmt :: stmts) w = (Throw transaction_closed_error, w)).
  { intros stmt stmts. unfold batch. cbn. unfold bind at 1 2.
    rewrite Hc. reflexivity. }
  repeat split.
  - intros stmt. unfold execute, bind. rewrite Hc. reflexivity.
  - intros sql. unfold executeMultiple, bind. rewrite Hc. reflexivity.
  - unfold commit, bind. rewrite Hc. reflexivity.
  - exact Hcons.
  - intros before stmt after w0 rs Hbefore. unfold batch in *.
    rewrite mapM_app, Hbefore.
    specialize (Hcons stmt after). unfold batch in Hcons. rewrite Hcons.
    reflexivity.
Qed.

Lemma executeStmt_string_first_event db sql intMode (w : World E) :
  exists r evs,
    w_trace (snd (executeStmt db (StmtString sql) intMode w))
    = w_trace w ++ EvPrepare db sql r :: evs.
Proof.
  pose proof (executeStmt_run db (StmtString sql) intMode w) as H.
  change (encodeStmt (StmtString sql)) with (Ok (sql, Positional [])) in H.
  destruct H as (evs & r & Hrun & _ & Htr & _).
  rewrite Htr. destruct Hrun; eauto.
Qed.

Lemma rollback_open (this : t) (w : World E) :
  db_open (database this) w = true ->
  db_inTransaction (database this) w = true ->
  rollback this w =
    match executeStmt (database this) (StmtString "ROLLBACK") (intMode this) w
    with
    | (Ok _, w1) => (Ok tt, snd (db_close (database this) w1))
    | (Throw e, w1) => (Throw e, w1)
    end.
Proof.
  intros Ho Ht. unfold rollback, bind.
  rewrite Ho, (checkNotClosed_passes this w Ho Ht). cbn.
  destruct (executeStmt (database this) (StmtString "ROLLBACK")
              (intMode this) w) as [[rs|e] w1]; reflexivity.
Qed.

Lemma closed_after_failed_stmt (this : t) stmt (w : World E) :
  closed this (snd (executeStmt (database this) stmt (intMode this) w))
  = closed this w.
Proof.
  unfold closed, db_open. rewrite executeStmt_open. reflexivity.
Qed.

Lemma rollback_closed (this : t) (w : World E) :
  db_open (database this) w = false -> rollback this w = (Ok tt, w).
Proof.
  intros Ho. unfold rollback. rewrite Ho. reflexivity.
Qed.

Lemma rollback_Ok_closed (this : t) (w w' : World E) :
  rollback this w = (Ok tt, w') -> closed this w' = true.
Proof.
  intros Hrb. destruct (db_open (database this) w) eqn:Ho.
  - destruct (db_inTransaction (database this) w) eqn:Ht.
    + rewrite (rollback_open this w Ho Ht) in Hrb.
      destruct (executeStmt (database this) (StmtString "ROLLBACK")
                  (intMode this) w) as [[rs|e] w1]; [|discriminate].
      assert (w' = snd (db_close (database this) w1)) as -> by congruence.
      unfold closed. rewrite db_open_close. reflexivity.
    + unfold rollback, bind in Hrb. rewrite Ho in Hrb. cbn in Hrb.
      rewrite (checkNotClosed_fails this w (or_intror Ht)) in Hrb.
      discriminate.
  - rewrite (rollback_closed this w Ho) in Hrb. injection Hrb as <-.
    unfold closed. rewrite Ho. reflexivity.
Qed.

(** C8, amended.  [rollback()] does nothing, and succeeds, when the handle
    was already released.  On an open handle it first makes the check of
    the other operations: when the engine reports no transaction in
    progress it throws the LibsqlError with code TRANSACTION_CLOSED and the
    handle stays open.  Past the check it issues ROLLBACK; if that
    succeeds it releases the handle, if not the error is thrown and the
    handle stays open.  After a [rollback()] that succeeded, the handle is
    released and a further [rollback()] does nothing. *)
Theorem rollback_behaviour (this : t) (w : World E) :
  (db_open (database this) w = false -> rollback this w = (Ok tt, w))
  /\ (db_open (database this) w = true ->
      db_inTransaction (database this) w = false ->
      rollback this w = (Throw transaction_closed_error, w)
      /\ closed this w = false)
  /\ (db_open (database this) w = true ->
      db_inTransaction (database this) w = true ->
      (exists r evs,
          w_trace (snd (rollback this w))
          = w_trace w ++ EvPrepare (database this) "ROLLBACK" r :: evs)
      /\ match executeStmt (database this) (StmtString "ROLLBACK")
                           (intMode this) w with
         | (Ok _, w1) =>
             rollback this w = (Ok tt, snd (db_close (database this) w1))
             /\ closed this (snd (rollback this w)) = true
         | (Throw e, w1) =>
             rollback this w = (Throw e, w1) /\ closed this w1 = false
         end)
  /\ (forall w', rollback this w = (Ok tt, w') ->
      closed this w' = true /\ rollback this w' = (Ok tt, w')).
Proof.
  split; [apply rollback_closed|]. split; [|split].
  - intros Ho Ht. split.
    + unfold rollback, bind. rewrite Ho. cbn.
      rewrite (checkNotClosed_fails this w (or_intror Ht)). reflexivity.
    + unfold closed. rewrite Ho. reflexivity.
  - intros Ho Ht. rewrite (rollback_open this w Ho Ht).
    destruct (executeStmt_string_first_event (database this) "ROLLBACK"
                (intMode this) w) as (r & evs & Htr).
    pose proof (closed_after_failed_stmt this (StmtString "ROLLBACK") w) as Hcl.
    destruct (executeStmt (database this) (StmtString "ROLLBACK")
                (intMode this) w) as [[rs|e] w1]; cbn [fst snd] in *.
    + split; [|split; [reflexivity|unfold closed; rewrite db_open_close; reflexivity]].
      exists r, (evs ++ [EvClose (database this)]). cbn. rewrite Htr.
      rewrite <- app_assoc. reflexivity.
    + split; [eauto|]. split; [reflexivity|].
      rewrite Hcl. unfold closed. rewrite Ho. reflexivity.
  - intros w' Hrb.
    pose proof (rollback_Ok_closed this w w' Hrb) as Hcl.
    split; [exact Hcl|]. apply rollback_closed.
    unfold closed in Hcl. apply negb_true_iff in Hcl. exact Hcl.
Qed.

(** C10, amended.  When the guard of [commit()] passes and its COMMIT
    statement fails, [commit()] throws that error without releasing the
    handle: the getter [closed] still answers false.  [close()] then
    releases it.  [rollback()] releases it only when it succeeds, and it
    succeeds when the engine still reports the transaction and accepts
    ROLLBACK; when ROLLBACK fails the error is thrown and the handle stays
    open; and when the failed COMMIT has ended the engine's transaction,
    [rollback()] throws TRANSACTION_CLOSED, changes nothing, and so does
    every further [rollback()]: only [close()] releases the handle. *)
Theorem failed_commit_keeps_handle (this : t) (w w1 : World E) (e : JsError) :
  db_open (database this) w = true ->
  db_inTransaction (database this) w = true ->
  executeStmt (database this) (StmtString "COMMIT") (intMode this) w
    = (Throw e, w1) ->
  commit this w = (Throw e, w1)
  /\ closed this w1 = false
  /\ fst (close this w1) = Ok tt
  /\ closed this (snd (close this w1)) = true
  /\ (forall w2, rollback this w1 = (Ok tt, w2) -> closed this w2 = true)
  /\ (db_inTransaction (database this) w1 = true ->
      forall rs w2,
        executeStmt (database this) (StmtString "ROLLBACK") (intMode this) w1
          = (Ok rs, w2) ->
        rollback this w1 = (Ok tt, snd (db_close (database this) w2)))
  /\ (db_inTransaction (database this) w1 = true ->
      forall e' w2,
        executeStmt (database this) (StmtString "ROLLBACK") (intMode this) w1
          = (Throw e', w2) ->
        rollback this w1 = (Throw e', w2) /\ closed this w2 = false)
  /\ (db_inTransaction (database this) w1 = false ->
      rollback this w1 = (Throw transaction_closed_error, w1)).
Proof.
  intros Ho Ht Hex.
  assert (Hcl : closed this w1 = false).
  { pose proof (closed_after_failed_stmt this (StmtString "COMMIT") w) as H.
    rewrite Hex in H. cbn in H. rewrite H. unfold closed. rewrite Ho.
    reflexivity. }
  assert (Ho1 : db_open (database this) w1 = true).
  { unfold closed in Hcl. apply negb_false_iff in Hcl. exact Hcl. }
  split; [|split; [exact Hcl|split; [reflexivity|split; [|split; [|split; [|split]]]]]].
  - unfold commit, bind. rewrite (checkNotClosed_passes this w Ho Ht), Hex.
    reflexivity.
  - unfold close, closed. rewrite db_open_close. reflexivity.
  - intros w2 Hrb. exact (rollback_Ok_closed this w1 w2 Hrb).
  - intros Ht1 rs w2 Hrb.
    rewrite (rollback_open this w1 Ho1 Ht1), Hrb. reflexivity.
  - intros Ht1 e' w2 Hrb.
    rewrite (rollback_open this w1 Ho1 Ht1), Hrb. split; [reflexivity|].
    pose proof (closed_after_failed_stmt this (StmtString "ROLLBACK") w1) as H.
    rewrite Hrb in H. cbn in H. rewrite H. exact Hcl.
  - intros Ht1. unfold rollback, bind. rewrite Ho1. cbn.
    rewrite (checkNotClosed_fails this w1 (or_intror Ht1)). reflexivity.
Qed.

End Guard.

Lemma transaction_guard_witness :
  execute Toy.tx0 (StmtString "SELECT 1") Toy.committed
    = (Throw transaction_closed_error, Toy.committed)
  /\ commit Toy.tx0 Toy.committed = (Throw transaction_closed_error, Toy.committed)
  /\ batch Toy.tx0 [StmtString "SELECT 1"] Toy.committed
     = (Throw transaction_closed_error, Toy.committed).
Proof.
  destruct (transaction_guard (E := Toy.engine) Toy.tx0 Toy.committed)
    as (_ & Hex & _ & Hc & Hb & _).
  - left. reflexivity.
  - split; [apply Hex|]. split; [exact Hc|apply Hb].
Defined.

(** C3, counterexample.  After [commit()] the transaction is closed, and
    yet [batch] with no statements does not fail: it makes no check and
    returns the empty list of results. *)
Lemma empty_batch_on_closed_transaction :
  fst (Sqlite3Client.transaction Toy.transactionModeToBegin Toy.client None
         (Toy.world0 false)) = Ok Toy.tx0
  /\ fst (commit Toy.tx0 (Toy.begun false)) = Ok tt
  /\ closed Toy.tx0 Toy.committed = true
  /\ batch Toy.tx0 [] Toy.committed = (Ok [], Toy.committed)
  /\ fst (batch Toy.tx0 [] Toy.committed) <> Throw transaction_closed_error.
Proof.
  split; [vm_compute; reflexivity|]. split; [vm_compute; reflexivity|].
  split; [vm_compute; reflexivity|]. split; [reflexivity|].
  cbn. discriminate.
Qed.

Lemma rollback_behaviour_witness :
  closed Toy.tx0 (snd (rollback Toy.tx0 (Toy.begun false))) = true
  /\ rollback Toy.tx0 (snd (rollback Toy.tx0 (Toy.begun false)))
     = (Ok tt, snd (rollback Toy.tx0 (Toy.begun false))).
Proof.
  destruct (rollback_behaviour (E := Toy.engine) Toy.tx0 (Toy.begun false))
    as (_ & _ & _ & H).
  apply H. vm_compute. reflexivity.
Defined.

(** C8, counterexample.  The statement COMMIT, run through [execute], ends
    the engine's transaction and leaves the handle open.  [rollback()] then
    issues no ROLLBACK and does not release the handle: it throws
    TRANSACTION_CLOSED, and a second [rollback()] throws again instead of
    doing nothing. *)
Lemma rollback_on_ended_transaction :
  fst (execute Toy.tx0 (StmtString "COMMIT") (Toy.begun false))
    = Ok (ResultSetImpl [] [] 0 (Some 0))
  /\ db_open (database Toy.tx0) Toy.ended = true
  /\ db_inTransaction (database Toy.tx0) Toy.ended = false
  /\ rollback Toy.tx0 Toy.ended = (Throw transaction_closed_error, Toy.ended)
  /\ closed Toy.tx0 (snd (rollback Toy.tx0 Toy.ended)) = false
  /\ fst (rollback Toy.tx0 (snd (rollback Toy.tx0 Toy.ended)))
     = Throw transaction_closed_error
  /\ fst (rollback Toy.tx0 (snd (rollback Toy.tx0 Toy.ended))) <> Ok tt.
Proof.
  split; [vm_compute; reflexivity|]. split; [vm_compute; reflexivity|].
  split; [vm_compute; reflexivity|]. split; [vm_compute; reflexivity|].
  split; [vm_compute; reflexivity|]. split; [vm_compute; reflexivity|].
  vm_compute. discriminate.
Qed.

(** C10, counterexample.  On the engine whose disk is full, COMMIT fails and
    the failure ends the engine's transaction.  [commit()] throws and the
    handle stays open; [rollback()] then throws TRANSACTION_CLOSED and
    leaves everything as it was, the handle still open, however often it
    is called: it is not available to release the handle, which only
    [close()] does. *)
Lemma rollback_after_failed_commit :
  fst (Sqlite3Client.transaction Toy.transactionModeToBegin Toy.client None
         (@Build_World Toy.full_disk
            {| Toy.in_tx := []; Toy.locked := false; Toy.rowid := 0 |}
            ∅ 0%nat []))
  = Ok Toy.tx0
  /\ commit Toy.tx0 Toy.begun_full
     = (Throw (mapSqliteError Toy.full_error), Toy.commit_full)
  /\ closed Toy.tx0 Toy.commit_full = false
  /\ db_inTransaction (database Toy.tx0) Toy.commit_full = false
  /\ rollback Toy.tx0 Toy.commit_full
     = (Throw transaction_closed_error, Toy.commit_full)
  /\ closed Toy.tx0 (snd (rollback Toy.tx0 Toy.commit_full)) = false
  /\ fst (rollback Toy.tx0 (snd (rollback Toy.tx0 Toy.commit_full)))
     <> Ok tt
  /\ closed Toy.tx0 (snd (close Toy.tx0 Toy.commit_full)) = true.
Proof.
  split; [vm_compute; reflexivity|]. split; [vm_compute; reflexivity|].
  split; [vm_compute; reflexivity|]. split; [vm_compute; reflexivity|].
  split; [vm_compute; reflexivity|]. split; [vm_compute; reflexivity|].
  split; [vm_compute; discriminate|]. vm_compute; reflexivity.
Qed.

Lemma failed_commit_keeps_handle_witness :
  commit Toy.tx0 (Toy.begun true) = (Throw Toy.locked_error, Toy.commit_failed)
  /\ closed Toy.tx0 Toy.commit_failed = false
  /\ closed Toy.tx0 (snd (close Toy.tx0 Toy.commit_failed)) = true
  /\ closed Toy.tx0 (snd (rollback Toy.tx0 Toy.commit_failed)) = true.
Proof.
  destruct (failed_commit_keeps_handle (E := Toy.engine) Toy.tx0 (Toy.begun true)
              Toy.commit_failed Toy.locked_error)
    as (Hc & Hcl & _ & Hclose & Hrb & _).
  - reflexivity.
  - reflexivity.
  - vm_compute. reflexivity.
  - split; [exact Hc|]. split; [exact Hcl|]. split; [exact Hclose|].
    apply Hrb. vm_compute. reflexivity.
Defined.

End TxFacts.

(* ===================================================================== *)
(** * Further properties of the code                                      *)
(* ===================================================================== *)

(** ** The codec, both ways *)

Section CodecMore.

Lemma int64_test (b : Z) :
  (b <? minInteger) || (b >? maxInteger)
  = negb ((minInteger <=? b) && (b <=? maxInteger)).
Proof.
  rewrite Z.gtb_ltb, negb_andb, Z.leb_antisym, Z.leb_antisym, !negb_involutive.
  reflexivity.
Qed.

(** X1.  Encoding a host value that the engine stores as it is, and
    decoding what was encoded, gives the value back: under IntMode
    "bigint" for every such value, and under every IntMode, valid or not,
    when the value is not a bigint. *)
Theorem encode_then_decode (v : JsValue) :
  host_value v = true ->
  exists e,
    valueToSql v = Ok e
    /\ valueFromSql e IntMode_bigint = Ok v
    /\ ((forall b, v <> JBigint b) ->
        forall mode, valueFromSql e mode = Ok v).
Proof.
  destruct v as [| |b|x|b|s|bytes|bytes|time|tag]; cbn; try discriminate;
    intros Hv.
  - exists JNull. split; [reflexivity|]. split; [reflexivity|].
    intros _ mode. destruct mode; reflexivity.
  - exists (JNumber x). rewrite Hv. cbn. split; [reflexivity|].
    split; [reflexivity|]. intros _ mode. destruct mode; reflexivity.
  - exists (JBigint b). rewrite int64_test, Hv. cbn. split; [reflexivity|].
    split; [reflexivity|]. intros H. destruct (H b eq_refl).
  - exists (JString s). split; [reflexivity|]. split; [reflexivity|].
    intros _ mode. destruct mode; reflexivity.
  - exists (JBuffer bytes). split; [reflexivity|]. split; [reflexivity|].
    intros _ mode. destruct mode; reflexivity.
Qed.

Lemma encode_then_decode_witness :
  exists e,
    valueToSql (JArrayBuffer [x01; xff]%byte) = Ok e
    /\ valueFromSql e IntMode_number = Ok (JArrayBuffer [x01; xff]%byte).
Proof.
  destruct (encode_then_decode (JArrayBuffer [x01; xff]%byte) eq_refl)
    as (e & Henc & _ & Hany).
  exists e. split; [exact Henc|]. apply Hany. discriminate.
Defined.

(** X2.  What [valueToSql] returns is null, text, a number, a Buffer, a
    bigint within the signed 64-bit range, or a value of another type,
    which is the argument itself, passed through unchanged; it is never
    [undefined], a boolean, a bare ArrayBuffer or a Date.  Encoding it again
    changes nothing, unless the input was a Date.  A number that is not
    finite leaves [valueToSql] only for a Date, and does so for the invalid
    Date, whose encoding is NaN. *)
Theorem valueToSql_range (v e : JsValue) :
  valueToSql v = Ok e ->
  engine_value e = true
  /\ (forall tag, e = JOther tag -> v = JOther tag)
  /\ ((forall time, v <> JDate time) -> valueToSql e = Ok e)
  /\ (forall x, e = JNumber x -> Number_isFinite x = false ->
      exists time, v = JDate time)
  /\ valueToSql (JDate None) = Ok (JNumber S754_nan)
  /\ is_Ok (valueToSql (JNumber S754_nan)) = false.
Proof.
  intros H.
  assert (Hcases :
    (exists x, v = JNumber x /\ Number_isFinite x = true /\ e = v)
    \/ (exists b, v = JBigint b
                  /\ (minInteger <=? b) && (b <=? maxInteger) = true /\ e = v)
    \/ (exists b, v = JBoolean b /\ e = JBigint (if b then 1 else 0))
    \/ (exists bytes, v = JArrayBuffer bytes /\ e = JBuffer bytes)
    \/ (exists time, v = JDate time /\ e = JNumber (Date_valueOf time))
    \/ (other_value v = true /\ e = v)).
  { destruct v as [| |b|x|b|s|bytes|bytes|time|tag]; cbn in H;
      try discriminate.
    - injection H as <-. do 5 right. split; reflexivity.
    - right. right. left. exists b. injection H as <-. split; reflexivity.
    - left. exists x. destruct (Number_isFinite x); [|discriminate].
      injection H as <-. repeat split.
    - right. left. exists b. rewrite int64_test in H.
      destruct ((minInteger <=? b) && (b <=? maxInteger)); [|discriminate].
      injection H as <-. repeat split.
    - injection H as <-. do 5 right. split; reflexivity.
    - do 3 right. left. exists bytes. injection H as <-. split; reflexivity.
    - injection H as <-. do 5 right. split; reflexivity.
    - do 4 right. left. exists time. injection H as <-. split; reflexivity.
    - injection H as <-. do 5 right. split; reflexivity. }
  split; [|split; [|split; [|split; [|split; reflexivity]]]].
  - destruct Hcases as [(x & -> & Hx & ->)|[(b & -> & Hb & ->)|[(b & -> & ->)
      |[(bytes & -> & ->)|[(time & -> & ->)|[Ho ->]]]]]]; cbn; auto.
    + destruct b; reflexivity.
    + destruct v; try discriminate; reflexivity.
  - intros tag ->.
    destruct Hcases as [(x & -> & Hx & [=])|[(b & -> & Hb & [=])|[(b & -> & [=])
      |[(bytes & -> & [=])|[(time & -> & [=])|[Ho <-]]]]]]. reflexivity.
  - intros Hdate.
    destruct Hcases as [(x & -> & Hx & ->)|[(b & -> & Hb & ->)|[(b & -> & ->)
      |[(bytes & -> & ->)|[(time & -> & ->)|[Ho ->]]]]]]; cbn.
    + rewrite Hx. reflexivity.
    + rewrite int64_test, Hb. reflexivity.
    + destruct b; reflexivity.
    + reflexivity.
    + destruct (Hdate time eq_refl).
    + destruct v; try discriminate; reflexivity.
  - intros x -> Hx.
    destruct Hcases as [(y & -> & Hy & [= <-])|[(b & -> & Hb & [=])|[(b & -> & [=])
      |[(bytes & -> & [=])|[(time & -> & _)|[Ho <-]]]]]].
    + congruence.
    + eauto.
    + discriminate.
Qed.

Lemma valueToSql_range_witness :
  engine_value (JBigint 1) = true /\ valueToSql (JBigint 1) = Ok (JBigint 1).
Proof.
  destruct (valueToSql_range (JBoolean true) (JBigint 1) eq_refl)
    as (Hv & _ & Hidem & _).
  split; [exact Hv|]. apply Hidem. discriminate.
Defined.

End CodecMore.

(** ** Argument encoding *)

Section EncodeMore.

Lemma rmap_spec {A B} (f : A -> Result B) (l : list A) :
  match rmap f l with
  | Ok bs => Forall2 (fun a b => f a = Ok b) l bs
  | Throw e =>
      exists pre a post,
        l = pre ++ a :: post
        /\ Forall (fun x => is_Ok (f x) = true) pre
        /\ f a = Throw e
  end.
Proof.
  induction l as [|x l IH]; cbn; [constructor|].
  destruct (f x) as [b|e] eqn:Hx; cbn.
  - destruct (rmap f l) as [bs|e]; cbn.
    + constructor; assumption.
    + destruct IH as (pre & a & post & -> & Hpre & Ha).
      exists (x :: pre), a, post. split; [reflexivity|].
      split; [constructor; [rewrite Hx; reflexivity|assumption]|assumption].
  - exists [], x, l. split; [reflexivity|]. split; [constructor|assumption].
Qed.

(** X3.  Positional arguments: the statement encodes if and only if every
    argument does; the encoded array then has the arguments' encodings, one
    for one and in order; otherwise the error thrown is that of the first
    argument that fails. *)
Theorem positional_args_encoding {E : Engine} (sql : string)
  (l : list JsValue) :
  match encodeStmt (StmtObject sql (ArgsArray l)) with
  | Ok (sql', Positional args) =>
      sql' = sql /\ Forall2 (fun v e => valueToSql v = Ok e) l args
  | Ok (_, Named _) => False
  | Throw e =>
      exists pre v post,
        l = pre ++ v :: post
        /\ Forall (fun x => is_Ok (valueToSql x) = true) pre
        /\ valueToSql v = Throw e
  end.
Proof.
  cbn. pose proof (rmap_spec valueToSql l) as H.
  destruct (rmap valueToSql l) as [args|e]; cbn; auto.
Qed.







End EncodeMore.

(** ** Rows *)

Section RowMore.

Lemma number_eqb_eq (x y : number) : number_eqb x y = true -> x = y.
Proof.
  destruct x, y; cbn; try discriminate.
  - intros H. apply Bool.eqb_prop in H. congruence.
  - intros H. apply Bool.eqb_prop in H. congruence.
  - reflexivity.
  - intros H. apply andb_true_iff in H as [H He].
    apply andb_true_iff in H as [Hs Hm].
    apply Bool.eqb_prop in Hs. apply Pos.eqb_eq in Hm. apply Z.eqb_eq in He.
    congruence.
Qed.

Lemma SameValue_eq (x y : JsValue) : SameValue x y = true -> x = y.
Proof.
  destruct x, y; cbn; try discriminate; try reflexivity; intros H.
  - apply Bool.eqb_prop in H. congruence.
  - apply number_eqb_eq in H. congruence.
  - apply Z.eqb_eq in H. congruence.
  - apply String.eqb_eq in H. congruence.
Qed.

Lemma getOwn_app (row l : Row) (k : string) :
  getOwn (row ++ l) k =
    match getOwn row k with Some p => Some p | None => getOwn l k end.
Proof.
  unfold getOwn. induction row as [|q row IH]; cbn; [reflexivity|].
  destruct (String.eqb (p_key q) k); [reflexivity|exact IH].
Qed.

Lemma getOwn_key (row : Row) (k : string) (p : Property) :
  getOwn row k = Some p -> p_key p = k /\ In p row.
Proof.
  unfold getOwn. intros H. apply find_some in H as [Hin Hk].
  apply String.eqb_eq in Hk. auto.
Qed.

Lemma getOwn_None (row : Row) (k : string) :
  getOwn row k = None <-> ~ In k (map p_key row).
Proof.
  unfold getOwn. induction row as [|q row IH]; cbn; [tauto|].
  destruct (String.eqb_spec (p_key q) k) as [Heq|Hne].
  - split; [discriminate|]. intros H. destruct H. left. exact Heq.
  - rewrite IH. tauto.
Qed.

(** What one [Object.defineProperty] does to a row that it accepts. *)
Lemma defineProperty_Ok (row row' : Row) (k : string) (v : JsValue)
  (en : option bool) :
  defineProperty row k v en = Ok row' ->
  (exists p, getOwn row k = Some p /\ p_value p = v /\ row' = row)
  \/ (getOwn row k = None
      /\ row' = row ++ [{| p_key := k; p_value := v;
                           p_enumerable := default false en |}]).
Proof.
  unfold defineProperty. destruct (getOwn row k) as [p|] eqn:Hk.
  - destruct (SameValue v (p_value p)) eqn:Hsv; cbn; [|discriminate].
    destruct (match en with Some b => _ | None => _ end); [|discriminate].
    intros [= <-]. left. exists p. apply SameValue_eq in Hsv. auto.
  - intros [= <-]. right. auto.
Qed.

Lemma defineProperty_keeps (row row' : Row) (k k0 : string) (v : JsValue)
  (en : option bool) (p : Property) :
  defineProperty row k v en = Ok row' ->
  getOwn row k0 = Some p -> getOwn row' k0 = Some p.
Proof.
  intros H Hp. destruct (defineProperty_Ok _ _ _ _ _ H)
    as [(q & _ & _ & ->)|[_ ->]]; [exact Hp|].
  rewrite getOwn_app, Hp. reflexivity.
Qed.

Lemma defineProperty_reads (row row' : Row) (k : string) (v : JsValue)
  (en : option bool) :
  defineProperty row k v en = Ok row' -> row_get row' k = Some v.
Proof.
  intros H. unfold row_get. destruct (defineProperty_Ok _ _ _ _ _ H)
    as [(q & Hq & Hv & ->)|[Hnone ->]].
  - rewrite Hq. cbn. congruence.
  - rewrite getOwn_app, Hnone. unfold getOwn. cbn.
    rewrite String.eqb_refl. reflexivity.
Qed.

Lemma defineProperty_hasOwn (row row' : Row) (k k0 : string) (v : JsValue)
  (en : option bool) :
  defineProperty row k v en = Ok row' ->
  hasOwn row' k0 = true -> hasOwn row k0 = true \/ k0 = k.
Proof.
  intros H. unfold hasOwn. destruct (defineProperty_Ok _ _ _ _ _ H)
    as [(q & _ & _ & ->)|[_ ->]]; [auto|].
  rewrite getOwn_app. destruct (getOwn row k0); [auto|].
  unfold getOwn. cbn. destruct (String.eqb_spec k k0); [auto|discriminate].
Qed.

(** One turn of the loop, taken apart. *)
Lemma rowFromSql_loop_step (cell : JsValue) (cells : list JsValue) (i : nat)
  (columns : list string) (intMode : IntMode) (row row' : Row) :
  rowFromSql_loop (cell :: cells) i columns intMode row = Ok row' ->
  exists value row1 row2,
    valueFromSql cell intMode = Ok value
    /\ defineProperty row (index_key i) value None = Ok row1
    /\ (if negb (hasOwn row1 (column_key columns i))
        then defineProperty row1 (column_key columns i) value (Some true)
        else Ok row1) = Ok row2
    /\ rowFromSql_loop cells (S i) columns intMode row2 = Ok row'.
Proof.
  cbn [rowFromSql_loop].
  destruct (valueFromSql cell intMode) as [value|e] eqn:Hv; cbn [rbind];
    [|discriminate].
  destruct (defineProperty row (index_key i) value None) as [row1|e] eqn:H1;
    cbn [rbind]; [|discriminate].
  destruct (if negb (hasOwn row1 (column_key columns i)) then _ else _)
    as [row2|e] eqn:H2; cbn [rbind]; [|discriminate].
  intros H. exists value, row1, row2.
  split; [reflexivity|]. split; [exact H1|]. split; [exact H2|exact H].
Qed.

Lemma column_step_keeps (row1 row2 : Row) (column : string) (value : JsValue)
  (k : string) (p : Property) :
  (if negb (hasOwn row1 column)
   then defineProperty row1 column value (Some true)
   else Ok row1) = Ok row2 ->
  getOwn row1 k = Some p -> getOwn row2 k = Some p.
Proof.
  destruct (negb (hasOwn row1 column)).
  - intros H. exact (defineProperty_keeps _ _ _ _ _ _ _ H).
  - intros [= <-]. auto.
Qed.

(** The loop never changes or removes a property that is there. *)
Lemma rowFromSql_loop_keeps (cells : list JsValue) (i : nat)
  (columns : list string) (intMode : IntMode) (row row' : Row)
  (k : string) (p : Property) :
  rowFromSql_loop cells i columns intMode row = Ok row' ->
  getOwn row k = Some p -> getOwn row' k = Some p.
Proof.
  revert i row. induction cells as [|cell cells IH]; intros i row H Hp.
  - cbn in H. injection H as <-. exact Hp.
  - destruct (rowFromSql_loop_step _ _ _ _ _ _ _ H)
      as (value & row1 & row2 & _ & H1 & H2 & Hrest).
    apply (IH _ _ Hrest). apply (column_step_keeps _ _ _ _ _ _ H2).
    exact (defineProperty_keeps _ _ _ _ _ _ _ H1 Hp).
Qed.

Lemma rowFromSql_loop_index (cells : list JsValue) (i : nat)
  (columns : list string) (intMode : IntMode) (row row' : Row) :
  rowFromSql_loop cells i columns intMode row = Ok row' ->
  forall n cell, cells !! n = Some cell ->
    exists value,
      valueFromSql cell intMode = Ok value
      /\ row_get row' (index_key (i + n)) = Some value.
Proof.
  revert i row. induction cells as [|c cells IH]; intros i row H n cell Hn;
    [discriminate|].
  destruct (rowFromSql_loop_step _ _ _ _ _ _ _ H)
    as (value & row1 & row2 & Hv & H1 & H2 & Hrest).
  destruct n as [|n]; cbn in Hn.
  - injection Hn as <-. exists value. split; [exact Hv|].
    rewrite Nat.add_0_r.
    pose proof (defineProperty_reads _ _ _ _ _ H1) as Hget.
    unfold row_get in *.
    destruct (getOwn row1 (index_key i)) as [p|] eqn:Hp; [|discriminate].
    rewrite (rowFromSql_loop_keeps _ _ _ _ _ _ _ _ Hrest
               (column_step_keeps _ _ _ _ _ _ H2 Hp)).
    exact Hget.
  - destruct (IH _ _ Hrest n cell Hn) as (value' & Hv' & Hget).
    exists value'. split; [exact Hv'|].
    replace (i + S n)%nat with (S i + n)%nat by lia. exact Hget.
Qed.

(** X5.  A row that [rowFromSql] returns reads, at [length], the number of
    cells and, at every index, the decoded value of the cell there; so a
    row is returned only when every cell decodes. *)
Theorem row_positional_access (sqlRow : list JsValue) (columns : list string)
  (intMode : IntMode) (row : Row) :
  rowFromSql sqlRow columns intMode = Ok row ->
  row_get row "length"
    = Some (JNumber (Number_of_bigint (Z.of_nat (length sqlRow))))
  /\ (forall i cell, sqlRow !! i = Some cell ->
       exists value,
         valueFromSql cell intMode = Ok value
         /\ row_get row (index_key i) = Some value)
  /\ Forall (fun cell => is_Ok (valueFromSql cell intMode) = true) sqlRow.
Proof.
  unfold rowFromSql. cbn [defineProperty getOwn find rbind app default].
  intros H.
  assert (Hidx : forall i cell, sqlRow !! i = Some cell ->
            exists value,
              valueFromSql cell intMode = Ok value
              /\ row_get row (index_key i) = Some value).
  { intros i cell Hi.
    exact (rowFromSql_loop_index _ _ _ _ _ _ H i cell Hi). }
  split; [|split; [exact Hidx|]].
  - unfold row_get.
    rewrite (rowFromSql_loop_keeps _ _ _ _ _ _ "length" _ H eq_refl).
    reflexivity.
  - apply Forall_forall. intros cell Hin.
    apply list_elem_of_lookup in Hin as [i Hi].
    destruct (Hidx i cell Hi) as (value & -> & _). reflexivity.
Qed.

Lemma row_positional_access_witness :
  row_get [ {| p_key := "length"; p_value := JNumber (Number_of_bigint 2);
               p_enumerable := false |};
            {| p_key := "0"; p_value := JBigint 1; p_enumerable := false |};
            {| p_key := "a"; p_value := JBigint 1; p_enumerable := true |};
            {| p_key := "1"; p_value := JBigint 2; p_enumerable := false |} ]
          (index_key 1)
  = Some (JBigint 2).
Proof.
  destruct (row_positional_access [JBigint 1; JBigint 2] ["a"; "a"]%string
              IntMode_bigint _ eq_refl) as (_ & H & _).
  destruct (H 1%nat (JBigint 2) eq_refl) as (value & [= <-] & Hget).
  exact Hget.
Defined.

Lemma column_step_hasOwn (row1 row2 : Row) (column : string) (value : JsValue)
  (k : string) :
  (if negb (hasOwn row1 column)
   then defineProperty row1 column value (Some true)
   else Ok row1) = Ok row2 ->
  hasOwn row2 k = true -> hasOwn row1 k = true \/ k = column.
Proof.
  destruct (negb (hasOwn row1 column)).
  - intros H. exact (defineProperty_hasOwn _ _ _ _ _ _ H).
  - intros [= <-]. auto.
Qed.

Lemma keys_below_step (columns : list string) (i : nat) (row row1 row2 : Row)
  (value : JsValue) :
  keys_below columns i row ->
  defineProperty row (index_key i) value None = Ok row1 ->
  (if negb (hasOwn row1 (column_key columns i))
   then defineProperty row1 (column_key columns i) value (Some true)
   else Ok row1) = Ok row2 ->
  keys_below columns (S i) row2.
Proof.
  intros Hinv H1 H2 k Hk.
  destruct (column_step_hasOwn _ _ _ _ _ H2 Hk) as [Hk1| ->].
  - destruct (defineProperty_hasOwn _ _ _ _ _ _ H1 Hk1) as [Hk0| ->].
    + destruct (Hinv k Hk0) as [?|[(j & Hj & ->)|(j & Hj & ->)]]; [auto| |].
      * right. left. exists j. split; [lia|reflexivity].
      * right. right. exists j. split; [lia|reflexivity].
    + right. left. exists i. split; [lia|reflexivity].
  - right. right. exists i. split; [lia|reflexivity].
Qed.

Lemma rowFromSql_loop_name (cells : list JsValue) (i : nat)
  (columns : list string) (intMode : IntMode) (row row' : Row) :
  rowFromSql_loop cells i columns intMode row = Ok row' ->
  keys_below columns i row ->
  forall n cell, cells !! n = Some cell ->
    column_key columns (i + n) <> "length"%string ->
    (forall j, (j <= i + n)%nat -> index_key j <> column_key columns (i + n)) ->
    (forall j, (j < i + n)%nat ->
       column_key columns j <> column_key columns (i + n)) ->
    exists value,
      valueFromSql cell intMode = Ok value
      /\ getOwn row' (column_key columns (i + n))
         = Some {| p_key := column_key columns (i + n); p_value := value;
                   p_enumerable := true |}.
Proof.
  revert i row. induction cells as [|c cells IH];
    intros i row H Hinv n cell Hn Hlen Hidx Hcol; [discriminate|].
  destruct (rowFromSql_loop_step _ _ _ _ _ _ _ H)
    as (value & row1 & row2 & Hv & H1 & H2 & Hrest).
  destruct n as [|n]; cbn in Hn.
  - injection Hn as <-. exists value. split; [exact Hv|].
    rewrite Nat.add_0_r in *.
    assert (Hno : hasOwn row1 (column_key columns i) = false).
    { destruct (hasOwn row1 (column_key columns i)) eqn:Hhas; [|reflexivity].
      exfalso.
      destruct (defineProperty_hasOwn _ _ _ _ _ _ H1 Hhas) as [Hk0|Heq].
      - destruct (Hinv _ Hk0) as [?|[(j & Hj & Heq)|(j & Hj & Heq)]].
        + contradiction.
        + apply (Hidx j); [lia|]. symmetry. exact Heq.
        + apply (Hcol j); [lia|]. symmetry. exact Heq.
      - apply (Hidx i); [lia|]. symmetry. exact Heq. }
    rewrite Hno in H2. cbn [negb] in H2.
    destruct (defineProperty_Ok _ _ _ _ _ H2) as [(q & Hq & _)|[Hnone ->]].
    + unfold hasOwn in Hno. rewrite Hq in Hno. discriminate.
    + apply (rowFromSql_loop_keeps _ _ _ _ _ _ _ _ Hrest).
      rewrite getOwn_app, Hnone. unfold getOwn. cbn.
      rewrite String.eqb_refl. reflexivity.
  - replace (i + S n)%nat with (S i + n)%nat in * by lia.
    exact (IH _ _ Hrest (keys_below_step _ _ _ _ _ _ Hinv H1 H2)
              n cell Hn Hlen Hidx Hcol).
Qed.

(** X6.  A row read by column name: the name reads the decoded value of
    the first cell under that name, as an enumerable property, whatever
    later columns are called; this holds for every name other than
    [length] that is not the key of an index up to that cell. *)
Theorem row_first_column_by_name (sqlRow : list JsValue)
  (columns : list string) (intMode : IntMode) (row : Row) (i : nat)
  (cell : JsValue) :
  rowFromSql sqlRow columns intMode = Ok row ->
  sqlRow !! i = Some cell ->
  column_key columns i <> "length"%string ->
  (forall j, (j <= i)%nat -> index_key j <> column_key columns i) ->
  (forall j, (j < i)%nat -> column_key columns j <> column_key columns i) ->
  exists value,
    valueFromSql cell intMode = Ok value
    /\ getOwn row (column_key columns i)
       = Some {| p_key := column_key columns i; p_value := value;
                 p_enumerable := true |}
    /\ In (column_key columns i) (enumerable_keys row).
Proof.
  unfold rowFromSql. cbn [defineProperty getOwn find rbind app default].
  intros H Hi Hlen Hidx Hcol.
  assert (Hinv : keys_below columns 0
            [{| p_key := "length";
                p_value := JNumber (Number_of_bigint (Z.of_nat (length sqlRow)));
                p_enumerable := false |}]).
  { intros k Hk. left. unfold hasOwn, getOwn, find in Hk. cbn [p_key] in Hk.
    destruct (String.eqb_spec "length" k); [auto|discriminate]. }
  destruct (rowFromSql_loop_name _ _ _ _ _ _ H Hinv i cell Hi Hlen Hidx Hcol)
    as (value & Hv & Hget).
  change (0 + i)%nat with i in Hget.
  exists value. split; [exact Hv|]. split; [exact Hget|].
  apply getOwn_key in Hget as [_ Hin].
  unfold enumerable_keys. apply in_map_iff.
  eexists. split; [|apply filter_In; split; [exact Hin|reflexivity]].
  reflexivity.
Qed.

Lemma row_first_column_by_name_witness :
  exists value,
    valueFromSql (JBigint 1) IntMode_string = Ok value
    /\ getOwn [ {| p_key := "length"; p_value := JNumber (Number_of_bigint 2);
                   p_enumerable := false |};
                {| p_key := "0"; p_value := JString "1";
                   p_enumerable := false |};
                {| p_key := "a"; p_value := JString "1";
                   p_enumerable := true |};
                {| p_key := "1"; p_value := JString "2";
                   p_enumerable := false |} ] "a"
       = Some {| p_key := "a"; p_value := value; p_enumerable := true |}.
Proof.
  destruct (row_first_column_by_name [JBigint 1; JBigint 2] ["a"; "a"]%string
              IntMode_string _ 0%nat (JBigint 1) eq_refl eq_refl)
    as (value & Hv & Hget & _).
  - discriminate.
  - intros j Hj. assert (j = 0%nat) as -> by lia. discriminate.
  - intros j Hj. lia.
  - exists value. split; [exact Hv|exact Hget].
Defined.

Lemma enumerable_keys_app (row l : Row) :
  enumerable_keys (row ++ l) = enumerable_keys row ++ enumerable_keys l.
Proof.
  unfold enumerable_keys. rewrite List.filter_app, map_app. reflexivity.
Qed.

Lemma defineProperty_shape (row row' : Row) (k : string) (v : JsValue)
  (en : option bool) :
  defineProperty row k v en = Ok row' ->
  NoDup (map p_key row) ->
  NoDup (map p_key row')
  /\ (forall k0, In k0 (enumerable_keys row') ->
       In k0 (enumerable_keys row) \/ (k0 = k /\ en = Some true)).
Proof.
  intros H Hnd. destruct (defineProperty_Ok _ _ _ _ _ H)
    as [(q & _ & _ & ->)|[Hnone ->]]; [auto|].
  split.
  - rewrite map_app. cbn. apply NoDup_app. split; [exact Hnd|].
    split; [|apply NoDup_singleton].
    intros x Hx Hx'. apply list_elem_of_singleton in Hx'. subst x.
    apply getOwn_None in Hnone. apply Hnone. apply list_elem_of_In. exact Hx.
  - intros k0. rewrite enumerable_keys_app, in_app_iff.
    intros [Hin|Hin]; [auto|]. right. unfold enumerable_keys in Hin. cbn in Hin.
    destruct en as [[|]|]; cbn in Hin; try contradiction.
    destruct Hin as [<-|[]]. auto.
Qed.

Lemma rowFromSql_loop_shape (cells : list JsValue) (i : nat)
  (columns : list string) (intMode : IntMode) (row row' : Row) :
  rowFromSql_loop cells i columns intMode row = Ok row' ->
  NoDup (map p_key row) ->
  NoDup (map p_key row')
  /\ (forall k, In k (enumerable_keys row') ->
       In k (enumerable_keys row)
       \/ exists n, (n < length cells)%nat /\ k = column_key columns (i + n)).
Proof.
  revert i row. induction cells as [|c cells IH]; intros i row H Hnd.
  - cbn in H. injection H as <-. auto.
  - destruct (rowFromSql_loop_step _ _ _ _ _ _ _ H)
      as (value & row1 & row2 & _ & H1 & H2 & Hrest).
    destruct (defineProperty_shape _ _ _ _ _ H1 Hnd) as [Hnd1 Hen1].
    assert (H12 : NoDup (map p_key row2)
              /\ (forall k, In k (enumerable_keys row2) ->
                    In k (enumerable_keys row1) \/ k = column_key columns i)).
    { destruct (negb (hasOwn row1 (column_key columns i))).
      - destruct (defineProperty_shape _ _ _ _ _ H2 Hnd1) as [Hnd2 Hen2].
        split; [exact Hnd2|]. intros k Hk.
        destruct (Hen2 k Hk) as [?|[? _]]; auto.
      - injection H2 as <-. auto. }
    destruct H12 as [Hnd2 Hen2].
    destruct (IH _ _ Hrest Hnd2) as [Hnd' Hen']. split; [exact Hnd'|].
    intros k Hk. destruct (Hen' k Hk) as [Hk2|(n & Hn & ->)].
    + destruct (Hen2 k Hk2) as [Hk1| ->].
      * destruct (Hen1 k Hk1) as [?|[_ Hen]]; [auto|discriminate].
      * right. exists 0%nat. cbn. split; [lia|]. rewrite Nat.add_0_r.
        reflexivity.
    + right. exists (S n). cbn. split; [lia|].
      replace (i + S n)%nat with (S (i + n)) by lia. reflexivity.
Qed.

(** X7.  In a row that [rowFromSql] returns no key occurs twice, and every
    enumerable key, one that an enumeration of the row shows, is the
    column name of one of the row's cells: [length] or an index shows only
    when it is such a column name as well. *)
Theorem row_keys (sqlRow : list JsValue) (columns : list string)
  (intMode : IntMode) (row : Row) :
  rowFromSql sqlRow columns intMode = Ok row ->
  NoDup (map p_key row)
  /\ (forall k, In k (enumerable_keys row) ->
       exists i, (i < length sqlRow)%nat /\ k = column_key columns i).
Proof.
  unfold rowFromSql. cbn [defineProperty getOwn find rbind app default].
  intros H.
  destruct (rowFromSql_loop_shape _ _ _ _ _ _ H) as [Hnd Hen].
  { cbn. apply NoDup_singleton. }
  split; [exact Hnd|]. intros k Hk.
  destruct (Hen k Hk) as [Hin|(n & Hn & ->)]; [destruct Hin|].
  exists n. auto.
Qed.

Lemma row_keys_witness :
  NoDup (map p_key
    [ {| p_key := "length"; p_value := JNumber (Number_of_bigint 1);
         p_enumerable := false |};
      {| p_key := "0"; p_value := JNull; p_enumerable := false |};
      {| p_key := "x"; p_value := JNull; p_enumerable := true |} ]).
Proof.
  exact (proj1 (row_keys [JNull] ["x"%string] IntMode_number _ eq_refl)).
Defined.

End RowMore.

(** ** What [executeStmt] touches and returns *)

Section ExecMore.
Context {E : Engine}.

Lemma body_run_footprint db sql args intMode evs r :
  body_run db sql args intMode evs r ->
  (length evs <= 5)%nat
  /\ Forall (fun ev => event_handle ev = db /\ statement_event ev = true) evs
  /\ exists r0 evs', evs = EvPrepare db sql r0 :: evs'.
Proof.
  intros H. destruct H; cbn; (split; [lia|]);
    (split; [repeat constructor|eauto]).
Qed.

(** X8.  [executeStmt] calls nothing but [prepare], [safeIntegers], [raw],
    [columns], [all] and [run], at most five times in all and only on the
    handle it was given; it never opens, closes or releases a handle, and
    when the arguments encode its first call is [prepare] with the
    statement's SQL. *)
Theorem executeStmt_footprint db stmt intMode (w : World E) :
  exists evs,
    w_trace (snd (executeStmt db stmt intMode w)) = w_trace w ++ evs
    /\ (length evs <= 5)%nat
    /\ Forall (fun ev => event_handle ev = db /\ statement_event ev = true) evs
    /\ w_open (snd (executeStmt db stmt intMode w)) = w_open w
    /\ w_next (snd (executeStmt db stmt intMode w)) = w_next w
    /\ match encodeStmt stmt with
       | Ok (sql, _) => exists r evs', evs = EvPrepare db sql r :: evs'
       | Throw _ => evs = []
       end.
Proof.
  pose proof (executeStmt_run db stmt intMode w) as H.
  destruct (encodeStmt stmt) as [[sql args]|e].
  - destruct H as (evs & r & Hrun & _ & Htr & Hop & Hnx).
    destruct (body_run_footprint _ _ _ _ _ _ Hrun) as (Hlen & Hall & Hfirst).
    exists evs. split; [exact Htr|]. split; [exact Hlen|].
    split; [exact Hall|]. split; [exact Hop|]. split; [exact Hnx|exact Hfirst].
  - rewrite H. exists []. cbn [fst snd]. rewrite app_nil_r.
    split; [reflexivity|]. split; [cbn; lia|]. split; [constructor|].
    split; [reflexivity|]. split; reflexivity.
Qed.

(** X9.  When [executeStmt] returns a ResultSet after the engine's [all]
    returned rows, the columns are the names the engine's [columns]
    reported and there is one Row per engine row, in order, each the
    [rowFromSql] of its engine row: no row is dropped, added or returned
    half decoded. *)
Theorem executeStmt_rows db stmt intMode (w w' : World E) rs evs args sqlRows :
  executeStmt db stmt intMode w = (Ok rs, w') ->
  w_trace w' = w_trace w ++ evs ->
  In (EvAll db args (Ok sqlRows)) evs ->
  In (EvColumns db (Ok (columns rs))) evs
  /\ Forall2 (fun sqlRow row => rowFromSql sqlRow (columns rs) intMode = Ok row)
             sqlRows (rows rs)
  /\ length (rows rs) = length sqlRows
  /\ exists sql, encodeStmt stmt = Ok (sql, args).
Proof.
  intros Hex Htr Hall. pose proof (executeStmt_run db stmt intMode w) as H.
  rewrite Hex in H. cbn [fst snd] in H.
  destruct (encodeStmt stmt) as [[sql args']|e]; [|discriminate].
  destruct H as (evs' & r & Hrun & Hr & Htr' & _).
  rewrite Htr' in Htr. apply app_inv_head in Htr. subst evs'.
  destruct Hrun as [e|e|e|cols e|cols rows1|e0 e|e0 info]; cbn in Hall;
    repeat (destruct Hall as [Hall|Hall]; try discriminate);
    try contradiction.
  injection Hall as Ha Hs. subst args' rows1.
  pose proof (rmap_spec (fun sqlRow => rowFromSql sqlRow cols intMode) sqlRows)
    as Hrows.
  destruct (rmap (fun sqlRow => rowFromSql sqlRow cols intMode) sqlRows)
    as [rows0|e]; cbn [map_error rbind] in Hr; [|discriminate].
  injection Hr as ->. cbn [columns rows].
  split; [cbn; auto 10|]. split; [exact Hrows|].
  split; [symmetry; exact (Forall2_length _ _ _ Hrows)|eauto].
Qed.

End ExecMore.

Lemma executeStmt_rows_witness :
  length (rows (ResultSetImpl ["1"%string]
                  [[ {| p_key := "length";
                        p_value := JNumber (Number_of_bigint 1);
                        p_enumerable := false |};
                     {| p_key := "0"; p_value := JBigint 1;
                        p_enumerable := false |};
                     {| p_key := "1"; p_value := JBigint 1;
                        p_enumerable := true |} ]] 0 None))
  = length [[JBigint 1]].
Proof.
  destruct (executeStmt_rows (E := Toy.engine) 0%nat (StmtString "SELECT 1")
              IntMode_bigint (Toy.world0 false)
              (snd (executeStmt (E := Toy.engine) 0%nat (StmtString "SELECT 1")
                      IntMode_bigint (Toy.world0 false)))
              _ _ (Positional []) [[JBigint 1]] eq_refl eq_refl)
    as (_ & _ & Hlen & _).
  - cbn. do 4 right. left. reflexivity.
  - exact Hlen.
Defined.

(** ** Handles: who opens them, who releases them *)

Section HandleLemmas.
Context {E : Engine}.

Lemma keeps_ret {A} (a : A) : keeps_handles (ret (E := E) a).
Proof. intros w. split; reflexivity. Qed.

Lemma keeps_throw {A} (e : JsError) : keeps_handles (throw (E := E) (A := A) e).
Proof. intros w. split; reflexivity. Qed.

Lemma keeps_lift {A} (r : Result A) : keeps_handles (lift (E := E) r).
Proof. intros w. split; reflexivity. Qed.

Lemma keeps_bind {A B} (m : M E A) (k : A -> M E B) :
  keeps_handles m -> (forall a, keeps_handles (k a)) -> keeps_handles (bind m k).
Proof.
  intros Hm Hk w. unfold bind. destruct (Hm w) as [Ho Hn].
  destruct (m w) as [[a|e] w1]; cbn [snd] in *.
  - destruct (Hk a w1) as [Ho' Hn']. split; congruence.
  - split; assumption.
Qed.

Lemma keeps_try_catch {A} (m : M E A) (h : JsError -> M E A) :
  keeps_handles m -> (forall e, keeps_handles (h e)) ->
  keeps_handles (try_catch m h).
Proof.
  intros Hm Hh w. unfold try_catch. destruct (Hm w) as [Ho Hn].
  destruct (m w) as [[a|e] w1]; cbn [snd] in *.
  - split; assumption.
  - destruct (Hh e w1) as [Ho' Hn']. split; congruence.
Qed.

Lemma keeps_call {A} (ev : Result A -> Event)
  (f : eng_state E -> Result A * eng_state E) :
  keeps_handles (call ev f).
Proof.
  intros w. unfold call. destruct (f (w_eng w)) as [r s0]. split; reflexivity.
Qed.

Lemma keeps_mapM {A B} (f : A -> M E B) (l : list A) :
  (forall a, keeps_handles (f a)) -> keeps_handles (mapM f l).
Proof.
  intros Hf. induction l as [|a l IH]; cbn [mapM].
  - apply keeps_ret.
  - apply keeps_bind; [apply Hf|]. intros b.
    apply keeps_bind; [exact IH|]. intros bs. apply keeps_ret.
Qed.

Lemma keeps_executeStmt db stmt intMode :
  keeps_handles (executeStmt (E := E) db stmt intMode).
Proof.
  intros w. pose proof (executeStmt_run db stmt intMode w) as H.
  destruct (encodeStmt stmt) as [[sql args]|e].
  - destruct H as (? & ? & _ & _ & _ & Hop & Hnx). split; assumption.
  - rewrite H. split; reflexivity.
Qed.

Lemma keeps_executeMultiple db sql :
  keeps_handles (executeMultiple (E := E) db sql).
Proof.
  unfold executeMultiple. apply keeps_try_catch; [apply keeps_call|].
  intros e. apply keeps_throw.
Qed.

Lemma keeps_tx_check (this : Sqlite3Transaction.t) :
  keeps_handles (Sqlite3Transaction.checkNotClosed (E := E) this).
Proof.
  intros w. unfold Sqlite3Transaction.checkNotClosed.
  destruct (_ || _); split; reflexivity.
Qed.

Lemma keeps_client_check (this : Sqlite3Client.t) :
  keeps_handles (Sqlite3Client.checkNotClosed (E := E) this).
Proof.
  intros w. unfold Sqlite3Client.checkNotClosed.
  destruct (Sqlite3Client.closed this); split; reflexivity.
Qed.

(** [acquire; try { body } finally { close }] leaves the open handles as
    they were, whatever the body does with statements. *)
Lemma scoped_handle {A} (path : string) (body : Hid -> M E A) (w : World E) :
  (forall db, keeps_handles (body db)) ->
  w_next w ∉ w_open w ->
  w_open (snd (bind (new_Database path)
                    (fun db => try_finally (body db) (db_close db)) w))
  = w_open w
  /\ w_next (snd (bind (new_Database path)
                       (fun db => try_finally (body db) (db_close db)) w))
     = S (w_next w).
Proof.
  intros Hbody Hfresh. unfold bind, new_Database.
  destruct (eng_new E (w_next w) path (w_eng w)) as [[[]|e] s0];
    [|split; reflexivity].
  unfold try_finally.
  match goal with
  | |- context [body ?h ?w1] =>
      destruct (Hbody h w1) as [Ho Hn]; destruct (body h w1) as [r w2]
  end.
  cbn [snd db_close w_open w_next] in *. rewrite Ho, Hn. cbn.
  split; [|reflexivity]. apply set_eq. intros x.
  rewrite elem_of_difference, elem_of_union, elem_of_singleton.
  split; [tauto|]. intros Hx. split; [tauto|]. intros ->. contradiction.
Qed.

Lemma mono_keeps {A} (m : M E A) : keeps_handles m -> monotone_handles m.
Proof.
  intros Hm w. destruct (Hm w) as [Ho Hn]. rewrite Ho, Hn.
  split; [lia|auto].
Qed.

Lemma mono_bind {A B} (m : M E A) (k : A -> M E B) :
  monotone_handles m -> (forall a, monotone_handles (k a)) ->
  monotone_handles (bind m k).
Proof.
  intros Hm Hk w. unfold bind. destruct (Hm w) as [Hn Ho].
  destruct (m w) as [[a|e] w1]; cbn [snd] in *; [|auto].
  destruct (Hk a w1) as [Hn' Ho']. split; [lia|].
  intros h Hh. destruct (Ho' h Hh) as [H1|H1]; [|right; lia].
  destruct (Ho h H1) as [H0|H0]; [auto|right; lia].
Qed.

Lemma mono_try_catch {A} (m : M E A) (k : JsError -> M E A) :
  monotone_handles m -> (forall e, monotone_handles (k e)) ->
  monotone_handles (try_catch m k).
Proof.
  intros Hm Hk w. unfold try_catch. destruct (Hm w) as [Hn Ho].
  destruct (m w) as [[a|e] w1]; cbn [snd] in *; [auto|].
  destruct (Hk e w1) as [Hn' Ho']. split; [lia|].
  intros h Hh. destruct (Ho' h Hh) as [H1|H1]; [|right; lia].
  destruct (Ho h H1) as [H0|H0]; [auto|right; lia].
Qed.

Lemma mono_try_finally {A} (m : M E A) (f : M E unit) :
  monotone_handles m -> monotone_handles f ->
  monotone_handles (try_finally m f).
Proof.
  intros Hm Hf w. unfold try_finally. destruct (Hm w) as [Hn Ho].
  destruct (m w) as [r w1]; cbn [snd] in *.
  destruct (Hf w1) as [Hn' Ho']. destruct (f w1) as [[[]|e] w2];
    cbn [snd] in *.
  all: split; [lia|]; intros h Hh;
    destruct (Ho' h Hh) as [H1|H1]; [|right; lia];
    destruct (Ho h H1) as [H0|H0]; [auto|right; lia].
Qed.

Lemma mono_new_Database (path : string) :
  monotone_handles (new_Database (E := E) path).
Proof.
  intros w. unfold new_Database.
  destruct (eng_new E (w_next w) path (w_eng w)) as [[[]|e] s0];
    cbn [snd w_open w_next].
  - split; [lia|]. intros h Hh. apply elem_of_union in Hh as [Hh|Hh]; [|auto].
    apply elem_of_singleton in Hh. subst h. right. lia.
  - split; [lia|auto].
Qed.

Lemma mono_db_close (db : Hid) : monotone_handles (db_close (E := E) db).
Proof.
  intros w. cbn. split; [lia|]. intros h Hh.
  apply elem_of_difference in Hh as [Hh _]. auto.
Qed.

Lemma mono_forgetM {A} (m : M E A) :
  monotone_handles m -> monotone_handles (forgetM m).
Proof.
  intros Hm w. unfold forgetM. specialize (Hm w).
  destruct (m w) as [r w1]. exact Hm.
Qed.

End HandleLemmas.

Section HandleProperties.
Context {E : Engine}.
Variable transactionModeToBegin : TransactionMode -> Result string.

Lemma keeps_tx_execute this stmt :
  keeps_handles (Sqlite3Transaction.execute (E := E) this stmt).
Proof.
  unfold Sqlite3Transaction.execute.
  apply keeps_bind; [apply keeps_tx_check|]. intros _. apply keeps_executeStmt.
Qed.

Lemma keeps_tx_batch this stmts :
  keeps_handles (Sqlite3Transaction.batch (E := E) this stmts).
Proof.
  unfold Sqlite3Transaction.batch. apply keeps_mapM. intros stmt.
  apply keeps_bind; [apply keeps_tx_check|]. intros _. apply keeps_executeStmt.
Qed.

Lemma keeps_tx_executeMultiple this sql :
  keeps_handles (Sqlite3Transaction.executeMultiple (E := E) this sql).
Proof.
  unfold Sqlite3Transaction.executeMultiple.
  apply keeps_bind; [apply keeps_tx_check|]. intros _.
  apply keeps_executeMultiple.
Qed.

(** X10.  [execute], [batch] and [executeMultiple] of a transaction never
    release a handle nor open one, whether they succeed or fail: the getter
    [closed] of every transaction answers after them what it answered
    before. *)
Theorem transaction_statements_keep_handles (this other : Sqlite3Transaction.t)
  (w : World E) :
  (forall stmt,
     w_open (snd (Sqlite3Transaction.execute this stmt w)) = w_open w
     /\ Sqlite3Transaction.closed other
          (snd (Sqlite3Transaction.execute this stmt w))
        = Sqlite3Transaction.closed other w)
  /\ (forall stmts,
       w_open (snd (Sqlite3Transaction.batch this stmts w)) = w_open w
       /\ Sqlite3Transaction.closed other
            (snd (Sqlite3Transaction.batch this stmts w))
          = Sqlite3Transaction.closed other w)
  /\ (forall sql,
       w_open (snd (Sqlite3Transaction.executeMultiple this sql w)) = w_open w
       /\ Sqlite3Transaction.closed other
            (snd (Sqlite3Transaction.executeMultiple this sql w))
          = Sqlite3Transaction.closed other w).
Proof.
  unfold Sqlite3Transaction.closed, db_open.
  split; [|split].
  - intros stmt. destruct (keeps_tx_execute this stmt w) as [-> _]. auto.
  - intros stmts. destruct (keeps_tx_batch this stmts w) as [-> _]. auto.
  - intros sql. destruct (keeps_tx_executeMultiple this sql w) as [-> _]. auto.
Qed.

Lemma keeps_batch_body (this : Sqlite3Client.t) (db : Hid)
  (stmts : list InStatement) (mode : option TransactionMode) :
  keeps_handles
    (bind (lift (transactionModeToBegin (default "deferred"%string mode)))
       (fun begin =>
        bind (executeStmt (E := E) db (StmtString begin)
                (Sqlite3Client.intMode this))
          (fun _ =>
           bind (mapM (fun stmt w =>
                         if negb (db_inTransaction db w)
                         then throw Sqlite3Client.rolled_back_error w
                         else executeStmt db stmt
                                (Sqlite3Client.intMode this) w) stmts)
             (fun resultSets =>
              bind (executeStmt db (StmtString "COMMIT")
                      (Sqlite3Client.intMode this))
                (fun _ => ret resultSets))))).
Proof.
  apply keeps_bind; [apply keeps_lift|]. intros begin.
  apply keeps_bind; [apply keeps_executeStmt|]. intros _.
  apply keeps_bind.
  - apply keeps_mapM. intros stmt w.
    destruct (negb (db_inTransaction db w)); [split; reflexivity|].
    apply keeps_executeStmt.
  - intros rs. apply keeps_bind; [apply keeps_executeStmt|]. intros _.
    apply keeps_ret.
Qed.

Lemma client_op_scoped {A} (this : Sqlite3Client.t) (body : Hid -> M E A)
  (w : World E) :
  (forall db, keeps_handles (body db)) ->
  w_next w ∉ w_open w ->
  w_open (snd (bind (Sqlite3Client.checkNotClosed this)
                 (fun _ => bind (new_Database (Sqlite3Client.path this))
                   (fun db => try_finally (body db) (db_close db))) w))
  = w_open w.
Proof.
  intros Hbody Hfresh. unfold bind at 1, Sqlite3Client.checkNotClosed.
  destruct (Sqlite3Client.closed this); [reflexivity|]. cbn [ret].
  exact (proj1 (scoped_handle _ body w Hbody Hfresh)).
Qed.

(** X11.  A standalone [execute], [batch] or [executeMultiple] leaves the
    set of open handles exactly as it found it, on success and on every
    failure.  [transaction] does so when it fails; when it succeeds, the
    one handle it adds is the new transaction's, under an identity not
    used before, and that transaction is not closed. *)
Theorem client_handle_scope (this : Sqlite3Client.t) (w : World E) :
  w_next w ∉ w_open w ->
  (forall stmt, w_open (snd (Sqlite3Client.execute this stmt w)) = w_open w)
  /\ (forall stmts mode,
       w_open (snd (Sqlite3Client.batch transactionModeToBegin this stmts mode w))
       = w_open w)
  /\ (forall sql,
       w_open (snd (Sqlite3Client.executeMultiple this sql w)) = w_open w)
  /\ (forall mode,
       match Sqlite3Client.transaction transactionModeToBegin this mode w with
       | (Ok tx, w') =>
           Sqlite3Transaction.database tx = w_next w
           /\ Sqlite3Transaction.intMode tx = Sqlite3Client.intMode this
           /\ w_open w' = {[ w_next w ]} ∪ w_open w
           /\ Sqlite3Transaction.closed tx w' = false
       | (Throw _, w') => w_open w' = w_open w
       end).
Proof.
  intros Hfresh. split; [|split; [|split]].
  - intros stmt. unfold Sqlite3Client.execute.
    apply client_op_scoped; [|exact Hfresh].
    intros db. apply keeps_executeStmt.
  - intros stmts mode. unfold Sqlite3Client.batch.
    apply client_op_scoped; [|exact Hfresh].
    intros db. apply keeps_batch_body.
  - intros sql. unfold Sqlite3Client.executeMultiple.
    apply client_op_scoped; [|exact Hfresh].
    intros db. apply keeps_executeMultiple.
  - intros mode. unfold Sqlite3Client.transaction, bind at 1,
      Sqlite3Client.checkNotClosed.
    destruct (Sqlite3Client.closed this); [reflexivity|]. cbn [ret].
    unfold bind at 1, new_Database.
    destruct (eng_new E (w_next w) (Sqlite3Client.path this) (w_eng w))
      as [[[]|e] s0]; [|reflexivity].
    unfold try_catch, bind at 1, lift.
    destruct (transactionModeToBegin (default "write"%string mode))
      as [begin|e].
    + unfold bind at 1.
      match goal with
      | |- context [executeStmt ?h ?st ?im ?w1] =>
          destruct (keeps_executeStmt h st im w1) as [Ho Hn];
          destruct (executeStmt h st im w1) as [[rs|e] w2]
      end; cbn [snd fst ret w_open w_next] in *.
      * split; [reflexivity|]. split; [reflexivity|]. split; [exact Ho|].
        unfold Sqlite3Transaction.closed, db_open. cbn. rewrite Ho.
        apply negb_false_iff, bool_decide_eq_true.
        apply elem_of_union. left. apply elem_of_singleton. reflexivity.
      * unfold bind, db_close, throw. cbn. rewrite Ho.
        apply set_eq. intros x.
        rewrite elem_of_difference, elem_of_union, elem_of_singleton.
        split; [tauto|]. intros Hx. split; [tauto|]. intros ->. contradiction.
    + unfold bind, db_close, throw. cbn.
      apply set_eq. intros x.
      rewrite elem_of_difference, elem_of_union, elem_of_singleton.
      split; [tauto|]. intros Hx. split; [tauto|]. intros ->. contradiction.
Qed.

End HandleProperties.

Lemma client_handle_scope_witness :
  w_open (snd (Sqlite3Client.execute Toy.client
                 (StmtObject "SELECT 1" (ArgsArray [JUndefined]))
                 (Toy.world0 false)))
  = w_open (Toy.world0 false).
Proof.
  destruct (client_handle_scope (E := Toy.engine) Toy.transactionModeToBegin
              Toy.client (Toy.world0 false)) as (H & _).
  - cbn. apply not_elem_of_empty.
  - apply H.
Defined.

Section OpenFailure.
Context {E : Engine}.
Variable transactionModeToBegin : TransactionMode -> Result string.

(** X12.  When opening the database fails, each operation of an open
    client throws the engine's error exactly as the engine threw it,
    [mapSqliteError] is not applied, and makes no other call: nothing is
    prepared and nothing is closed. *)
Theorem client_open_failure (this : Sqlite3Client.t) (w : World E)
  (e : JsError) (s : eng_state E) :
  Sqlite3Client.closed this = false ->
  eng_new E (w_next w) (Sqlite3Client.path this) (w_eng w) = (Throw e, s) ->
  let w' := after_failed_open (Sqlite3Client.path this) e s w in
  (forall stmt, Sqlite3Client.execute this stmt w = (Throw e, w'))
  /\ (forall stmts mode,
       Sqlite3Client.batch transactionModeToBegin this stmts mode w
       = (Throw e, w'))
  /\ (forall mode,
       Sqlite3Client.transaction transactionModeToBegin this mode w
       = (Throw e, w'))
  /\ (forall sql, Sqlite3Client.executeMultiple this sql w = (Throw e, w')).
Proof.
  intros Hc Hnew. cbv zeta.
  assert (Hopen : new_Database (Sqlite3Client.path this) w
                  = (Throw e, after_failed_open (Sqlite3Client.path this) e s w)).
  { unfold new_Database. rewrite Hnew. reflexivity. }
  repeat split; intros;
    unfold Sqlite3Client.execute, Sqlite3Client.batch,
      Sqlite3Client.transaction, Sqlite3Client.executeMultiple,
      Sqlite3Client.checkNotClosed;
    unfold bind at 1; rewrite Hc; cbn [ret];
    unfold bind at 1; rewrite Hopen; reflexivity.
Qed.

End OpenFailure.

Lemma client_open_failure_witness :
  fst (Sqlite3Client.execute (E := Toy.unopenable) Toy.client
         (StmtString "SELECT 1")
         (@Build_World Toy.unopenable
            {| Toy.in_tx := []; Toy.locked := false; Toy.rowid := 0 |}
            ∅ 0%nat []))
  = Throw (SqliteError "unable to open database file" "SQLITE_CANTOPEN").
Proof.
  destruct (client_open_failure (E := Toy.unopenable)
              Toy.transactionModeToBegin Toy.client
              (@Build_World Toy.unopenable
                 {| Toy.in_tx := []; Toy.locked := false; Toy.rowid := 0 |}
                 ∅ 0%nat [])
              Toy.cantopen_error
              {| Toy.in_tx := []; Toy.locked := false; Toy.rowid := 0 |}
              eq_refl eq_refl) as (H & _).
  rewrite H. reflexivity.
Defined.

Section Lifetime.
Context {E : Engine}.
Variable transactionModeToBegin : TransactionMode -> Result string.
Variable toLowerCase : string -> string.
Variable JSON_stringify : string -> string.
Variable supportedUrlLink : string.

Lemma mono_client_op {A} (this : Sqlite3Client.t) (body : Hid -> M E A) :
  (forall db, monotone_handles (body db)) ->
  monotone_handles
    (bind (Sqlite3Client.checkNotClosed this)
       (fun _ => bind (new_Database (Sqlite3Client.path this)) body)).
Proof.
  intros Hbody. apply mono_bind; [apply mono_keeps, keeps_client_check|].
  intros _. apply mono_bind; [apply mono_new_Database|exact Hbody].
Qed.

Lemma mono_perform (c : Sqlite3Client.t) (op : ClientCall) (w : World E) :
  (w_next w <= w_next (snd (perform transactionModeToBegin c op w)))%nat
  /\ forall h, h ∈ w_open (snd (perform transactionModeToBegin c op w)) ->
       h ∈ w_open w
       \/ (w_next w <= h
           < w_next (snd (perform transactionModeToBegin c op w)))%nat.
Proof.
  destruct op as [stmt|stmts mode|mode|sql|]; cbn [perform].
  - pose proof (mono_client_op c
      (fun db => try_finally (executeStmt db stmt (Sqlite3Client.intMode c))
                             (db_close db))) as H.
    specialize (H (fun db => mono_try_finally _ _
                     (mono_keeps _ (keeps_executeStmt _ _ _))
                     (mono_db_close db)) w).
    unfold Sqlite3Client.execute.
    destruct (bind _ _ w) as [r w']. exact H.
  - unfold Sqlite3Client.batch.
    match goal with
    | |- context [bind ?a ?k w] =>
        assert (H : monotone_handles (bind a k))
    end.
    { apply mono_client_op. intros db. apply mono_try_finally;
        [|apply mono_db_close].
      apply mono_keeps. apply (keeps_batch_body transactionModeToBegin c). }
    specialize (H w). destruct (bind _ _ w) as [r w']. exact H.
  - unfold Sqlite3Client.transaction.
    match goal with
    | |- context [bind ?a ?k w] =>
        assert (H : monotone_handles (bind a k))
    end.
    { apply mono_client_op. intros db. apply mono_try_catch.
      - apply mono_keeps. apply keeps_bind; [apply keeps_lift|]. intros begin.
        apply keeps_bind; [apply keeps_executeStmt|]. intros _.
        apply keeps_ret.
      - intros e. apply mono_bind; [apply mono_db_close|]. intros _.
        apply mono_keeps, keeps_throw. }
    specialize (H w). destruct (bind _ _ w) as [r w']. exact H.
  - pose proof (mono_client_op c
      (fun db => try_finally (executeMultiple db sql) (db_close db))) as H.
    specialize (H (fun db => mono_try_finally _ _
                     (mono_keeps _ (keeps_executeMultiple _ _))
                     (mono_db_close db)) w).
    unfold Sqlite3Client.executeMultiple.
    destruct (bind _ _ w) as [r w']. exact H.
  - cbn [snd]. split; [lia|auto].
Qed.

Lemma mono_tx_ending (this : Sqlite3Transaction.t) (sql : string) :
  monotone_handles
    (bind (Sqlite3Transaction.checkNotClosed (E := E) this)
       (fun _ =>
        bind (executeStmt (Sqlite3Transaction.database this) (StmtString sql)
                (Sqlite3Transaction.intMode this))
          (fun _ => db_close (Sqlite3Transaction.database this)))).
Proof.
  apply mono_bind; [apply mono_keeps, keeps_tx_check|]. intros _.
  apply mono_bind; [apply mono_keeps, keeps_executeStmt|]. intros _.
  apply mono_db_close.
Qed.

Lemma mono_perform_tx (t : Sqlite3Transaction.t) (op : TxCall) :
  monotone_handles (perform_tx (E := E) t op).
Proof.
  destruct op as [stmt|stmts|sql| | |]; cbn [perform_tx].
  - apply mono_forgetM, mono_keeps, keeps_tx_execute.
  - apply mono_forgetM, mono_keeps, keeps_tx_batch.
  - apply mono_keeps, keeps_tx_executeMultiple.
  - intros w. unfold Sqlite3Transaction.rollback.
    destruct (negb (db_open (Sqlite3Transaction.database t) w)).
    + cbn. split; [lia|auto].
    + apply (mono_tx_ending t "ROLLBACK").
  - apply (mono_tx_ending t "COMMIT").
  - apply mono_db_close.
Qed.

Lemma mono_createClient (config : Create.ExpandedConfig) :
  monotone_handles
    (Create._createClient (E := E) toLowerCase JSON_stringify supportedUrlLink
       config).
Proof.
  unfold Create._createClient.
  destruct (negb (String.eqb (Create.scheme config) "file"));
    [apply mono_keeps, keeps_throw|].
  apply mono_bind; [apply mono_keeps, keeps_lift|]. intros _.
  apply mono_bind; [apply mono_new_Database|]. intros db.
  apply mono_bind.
  - apply mono_try_finally; [|apply mono_db_close].
    apply mono_keeps, keeps_executeStmt.
  - intros _. apply mono_keeps, keeps_ret.
Qed.

Lemma mono_after_call (call : AnyCall) (w : World E) :
  let w' := after_call transactionModeToBegin toLowerCase JSON_stringify
              supportedUrlLink call w in
  (w_next w <= w_next w')%nat
  /\ forall h, h ∈ w_open w' ->
       h ∈ w_open w \/ (w_next w <= h < w_next w')%nat.
Proof.
  destruct call as [c op|t op|config]; cbn [after_call].
  - apply mono_perform.
  - apply mono_perform_tx.
  - apply mono_createClient.
Qed.

Lemma after_calls_cons (call : AnyCall) (calls : list AnyCall) (w : World E) :
  after_calls transactionModeToBegin toLowerCase JSON_stringify
    supportedUrlLink (call :: calls) w
  = after_calls transactionModeToBegin toLowerCase JSON_stringify
      supportedUrlLink calls
      (after_call transactionModeToBegin toLowerCase JSON_stringify
         supportedUrlLink call w).
Proof. reflexivity. Qed.

(** X13.  Handle identities are never reused: when every open handle is
    older than the next identity, the same holds after any sequence of
    calls on any clients and transactions and of [_createClient], and the
    next identity never decreases. *)
Theorem handles_stay_fresh (calls : list AnyCall) (w : World E) :
  fresh w ->
  fresh (after_calls transactionModeToBegin toLowerCase JSON_stringify
           supportedUrlLink calls w)
  /\ (w_next w
      <= w_next (after_calls transactionModeToBegin toLowerCase JSON_stringify
                   supportedUrlLink calls w))%nat.
Proof.
  revert w. induction calls as [|call calls IH]; intros w Hw.
  - cbn. split; [exact Hw|lia].
  - rewrite after_calls_cons.
    destruct (mono_after_call call w) as [Hn Ho].
    destruct (IH (after_call transactionModeToBegin toLowerCase JSON_stringify
                    supportedUrlLink call w)) as [Hf Hn'].
    + intros h Hh. destruct (Ho h Hh) as [H0|H0]; [|lia].
      specialize (Hw h H0). lia.
    + split; [exact Hf|lia].
Qed.

(** X14.  A transaction that is closed stays closed: once its handle, an
    identity already handed out, is released, no sequence of calls on any
    client or transaction, nor [_createClient], makes its getter [closed]
    answer false again. *)
Theorem released_transaction_stays_released (this : Sqlite3Transaction.t)
  (calls : list AnyCall) (w : World E) :
  fresh w ->
  (Sqlite3Transaction.database this < w_next w)%nat ->
  Sqlite3Transaction.closed this w = true ->
  Sqlite3Transaction.closed this
    (after_calls transactionModeToBegin toLowerCase JSON_stringify
       supportedUrlLink calls w) = true.
Proof.
  revert w. induction calls as [|call calls IH]; intros w Hw Hlt Hcl;
    [exact Hcl|].
  rewrite after_calls_cons.
  destruct (mono_after_call call w) as [Hn Ho].
  apply IH.
  - intros h Hh. destruct (Ho h Hh) as [H0|H0]; [|lia].
    specialize (Hw h H0). lia.
  - lia.
  - unfold Sqlite3Transaction.closed, db_open in *.
    apply negb_true_iff, bool_decide_eq_false in Hcl.
    apply negb_true_iff, bool_decide_eq_false. intros Hh.
    destruct (Ho _ Hh) as [H0|H0]; [contradiction|lia].
Qed.

End Lifetime.

Lemma handles_stay_fresh_witness :
  fresh (after_calls Toy.transactionModeToBegin (fun h => h) (fun h => h)
           "https://example.org"
           [OnClient Toy.client (CallTransaction None);
            OnTransaction Toy.tx0 TxCommit;
            OnClient Toy.client (CallExecute (StmtString "SELECT 1"))]
           (Toy.world0 false)).
Proof.
  apply (handles_stay_fresh (E := Toy.engine)).
  intros h Hh. cbn in Hh. apply not_elem_of_empty in Hh. destruct Hh.
Defined.

Lemma released_transaction_stays_released_witness :
  Sqlite3Transaction.closed Toy.tx0
    (after_calls Toy.transactionModeToBegin (fun h => h) (fun h => h)
       "https://example.org"
       [OnClient Toy.client (CallTransaction None);
        OnTransaction Toy.tx0 TxRollback;
        OnTransaction Toy.tx0 (TxExecute (StmtString "SELECT 1"))]
       Toy.committed) = true.
Proof.
  apply (released_transaction_stays_released (E := Toy.engine)).
  - intros h Hh. vm_compute in Hh. discriminate Hh.
  - vm_compute. lia.
  - vm_compute. reflexivity.
Defined.

(** ** Transactions: endings and batches *)

Section TransactionMore.
Context {E : Engine}.
Import Sqlite3Transaction.

Lemma commit_Ok_closed (this : t) (w w' : World E) :
  commit this w = (Ok tt, w') -> closed this w' = true.
Proof.
  unfold commit, bind.
  destruct (checkNotClosed this w) as [[[]|e] w1]; [|discriminate].
  destruct (executeStmt (database this) (StmtString "COMMIT") (intMode this) w1)
    as [[rs|e] w2]; [|discriminate].
  intros H. apply (f_equal snd) in H. cbn [snd] in H. subst w'.
  unfold closed. rewrite TxFacts.db_open_close. reflexivity.
Qed.

(** X15.  After a [commit()] or a [rollback()] that succeeded, and after
    [close()], the transaction is closed for good: [execute],
    [executeMultiple], [commit] and every batch with a statement throw the
    LibsqlError with code TRANSACTION_CLOSED without touching the engine,
    and [rollback()] does nothing. *)
Theorem transaction_terminal (this : t) (w w' : World E) :
  commit this w = (Ok tt, w')
  \/ rollback this w = (Ok tt, w')
  \/ close this w = (Ok tt, w') ->
  closed this w' = true
  /\ (forall stmt, execute this stmt w' = (Throw transaction_closed_error, w'))
  /\ (forall sql,
       executeMultiple this sql w' = (Throw transaction_closed_error, w'))
  /\ commit this w' = (Throw transaction_closed_error, w')
  /\ (forall stmt stmts,
       batch this (stmt :: stmts) w' = (Throw transaction_closed_error, w'))
  /\ rollback this w' = (Ok tt, w').
Proof.
  intros Hend.
  assert (Hcl : closed this w' = true).
  { destruct Hend as [H|[H|H]].
    - exact (commit_Ok_closed _ _ _ H).
    - exact (TxFacts.rollback_Ok_closed _ _ _ H).
    - unfold close in H. apply (f_equal snd) in H. cbn [snd] in H. subst w'.
      unfold closed. rewrite TxFacts.db_open_close. reflexivity. }
  assert (Ho : db_open (database this) w' = false).
  { unfold closed in Hcl. apply negb_true_iff in Hcl. exact Hcl. }
  pose proof (TxFacts.checkNotClosed_fails this w' (or_introl Ho)) as Hc.
  split; [exact Hcl|].
  split; [intros stmt; unfold execute, bind; rewrite Hc; reflexivity|].
  split; [intros sql; unfold executeMultiple, bind; rewrite Hc; reflexivity|].
  split; [unfold commit, bind; rewrite Hc; reflexivity|].
  split; [|exact (TxFacts.rollback_closed this w' Ho)].
  intros stmt stmts. unfold batch. cbn [mapM]. unfold bind at 1 2.
  rewrite Hc. reflexivity.
Qed.

Lemma mapM_length {A B} (f : A -> M E B) (l : list A) (w w' : World E)
  (bs : list B) :
  mapM f l w = (Ok bs, w') -> length bs = length l.
Proof.
  revert w w' bs. induction l as [|a l IH]; intros w w' bs; cbn [mapM].
  - unfold ret. intros [= <- _]. reflexivity.
  - unfold bind, ret. destruct (f a w) as [[b|e] w1]; [|discriminate].
    destruct (mapM f l w1) as [[bs'|e] w2] eqn:Hl; [|discriminate].
    intros [= <- _]. cbn. f_equal. exact (IH _ _ _ Hl).
Qed.

(** X16.  Batches of a transaction compose: running two lists of
    statements as one batch is running the first list and, if it succeeds,
    the second from where the first ended, the results appended; when the
    first list fails, the batch fails with its error and the second list is
    never looked at.  A batch of one statement is [execute] of it; a batch
    that succeeds returns one ResultSet per statement. *)
Theorem transaction_batch_composes (this : t) (l1 l2 : list InStatement)
  (w : World E) :
  batch this (l1 ++ l2) w =
    match batch this l1 w with
    | (Ok rs1, w1) =>
        match batch this l2 w1 with
        | (Ok rs2, w2) => (Ok (rs1 ++ rs2), w2)
        | (Throw e, w2) => (Throw e, w2)
        end
    | (Throw e, w1) => (Throw e, w1)
    end
  /\ (forall stmt,
       batch this [stmt] w =
         match execute this stmt w with
         | (Ok rs, w1) => (Ok [rs], w1)
         | (Throw e, w1) => (Throw e, w1)
         end)
  /\ (forall rs w', batch this l1 w = (Ok rs, w') -> length rs = length l1).
Proof.
  split; [apply TxFacts.mapM_app|]. split.
  - intros stmt. unfold batch, execute. cbn [mapM]. unfold bind, ret.
    destruct (checkNotClosed this w) as [[[]|e] w1]; [|reflexivity].
    destruct (executeStmt (database this) stmt (intMode this) w1)
      as [[rs|e] w2]; reflexivity.
  - intros rs w' H. exact (mapM_length _ _ _ _ _ H).
Qed.

End TransactionMore.

Lemma transaction_terminal_witness :
  Sqlite3Transaction.execute Toy.tx0 (StmtString "SELECT 1") Toy.committed
  = (Throw Sqlite3Transaction.transaction_closed_error, Toy.committed).
Proof.
  destruct (transaction_terminal (E := Toy.engine) Toy.tx0 (Toy.begun false)
              Toy.committed) as (_ & H & _).
  - left. vm_compute. reflexivity.
  - apply H.
Defined.

(** ** The client: batches and creation *)

Section ClientMore.
Context {E : Engine}.
Variable transactionModeToBegin : TransactionMode -> Result string.

(** X17.  A [batch] of the client that succeeds was run by an open client
    under a mode that has a BEGIN statement, and returns exactly one
    ResultSet per statement. *)
Theorem client_batch_results (this : Sqlite3Client.t)
  (stmts : list InStatement) (mode : option TransactionMode)
  (w w' : World E) (rs : list ResultSet) :
  Sqlite3Client.batch transactionModeToBegin this stmts mode w = (Ok rs, w') ->
  length rs = length stmts
  /\ Sqlite3Client.closed this = false
  /\ is_Ok (transactionModeToBegin (default "deferred"%string mode)) = true.
Proof.
  unfold Sqlite3Client.batch, bind at 1, Sqlite3Client.checkNotClosed.
  destruct (Sqlite3Client.closed this); [discriminate|]. cbn [ret].
  unfold bind at 1.
  destruct (new_Database (Sqlite3Client.path this) w) as [[db|e] w1];
    [|discriminate].
  unfold try_finally, db_close, bind at 1, lift.
  destruct (transactionModeToBegin (default "deferred"%string mode))
    as [begin|e]; [|discriminate].
  unfold bind at 1.
  destruct (executeStmt db (StmtString begin) (Sqlite3Client.intMode this) w1)
    as [[rs0|e] w2]; [|discriminate].
  unfold bind at 1.
  match goal with
  | |- context [mapM ?f stmts w2] =>
      destruct (mapM f stmts w2) as [[rs1|e] w3] eqn:Hloop; [|discriminate]
  end.
  unfold bind, ret.
  destruct (executeStmt db (StmtString "COMMIT") (Sqlite3Client.intMode this) w3)
    as [[rs2|e] w4]; [|discriminate].
  intros [= <- _]. split; [exact (mapM_length _ _ _ _ _ Hloop)|].
  split; reflexivity.
Qed.

End ClientMore.

Lemma client_batch_results_witness :
  length (match fst (Sqlite3Client.batch Toy.transactionModeToBegin Toy.client
                       [StmtString "INSERT INTO t VALUES (1)";
                        StmtString "SELECT 1"] None (Toy.world0 false))
          with Ok rs => rs | Throw _ => [] end) = 2%nat.
Proof.
  destruct (Sqlite3Client.batch Toy.transactionModeToBegin Toy.client
              [StmtString "INSERT INTO t VALUES (1)"; StmtString "SELECT 1"]
              None (Toy.world0 false)) as [[rs|e] w'] eqn:Hb.
  - cbn [fst].
    exact (proj1 (client_batch_results (E := Toy.engine)
                    Toy.transactionModeToBegin Toy.client _ None
                    (Toy.world0 false) w' rs Hb)).
  - vm_compute in Hb. discriminate Hb.
Defined.

Section CreateMore.
Context {E : Engine}.
Variable toLowerCase : string -> string.
Variable JSON_stringify : string -> string.
Variable supportedUrlLink : string.

Lemma check_authority_valid (config : Create.ExpandedConfig) :
  String.eqb (Create.scheme config) "file" = true ->
  match Create.check_authority toLowerCase JSON_stringify supportedUrlLink
          config with
  | Ok _ => valid_target toLowerCase config = true
  | Throw e =>
      valid_target toLowerCase config = false
      /\ exists message, e = LibsqlError message "URL_INVALID" None
  end.
Proof.
  intros Hs. unfold Create.check_authority, valid_target. rewrite Hs.
  destruct (Create.authority config) as [a|]; [|reflexivity].
  destruct (String.eqb (toLowerCase (Create.host a)) EmptyString);
    destruct (String.eqb (toLowerCase (Create.host a)) "localhost");
    cbn;
    try (split; [reflexivity|eexists; reflexivity]);
    destruct (Create.port a); cbn;
    try (split; [reflexivity|eexists; reflexivity]);
    destruct (Create.userinfo a); cbn;
    try (split; [reflexivity|eexists; reflexivity]); reflexivity.
Qed.

Lemma createClient_steps (config : Create.ExpandedConfig) (w : World E) :
  String.eqb (Create.scheme config) "file" = true ->
  Create.check_authority toLowerCase JSON_stringify supportedUrlLink config
    = Ok tt ->
  Create._createClient toLowerCase JSON_stringify supportedUrlLink config w =
    match new_Database (Create.path config) w with
    | (Ok db, w1) =>
        match executeStmt db (StmtString Create.probe_sql)
                (Create.intMode config) w1 with
        | (Ok _, w2) =>
            (Ok (Sqlite3Client.constructor (Create.path config)
                   (Create.intMode config)),
             snd (db_close db w2))
        | (Throw e, w2) => (Throw e, snd (db_close db w2))
        end
    | (Throw e, w1) => (Throw e, w1)
    end.
Proof.
  intros Hs Hc. unfold Create._createClient. rewrite Hs, Hc. cbn [negb].
  unfold bind, lift, try_finally, ret.
  destruct (new_Database (Create.path config) w) as [[db|e] w1];
    [|reflexivity].
  destruct (executeStmt db (StmtString Create.probe_sql)
              (Create.intMode config) w1) as [[rs|e] w2]; reflexivity.
Qed.

(** X18.  [_createClient] refuses a target that is not a file URL without
    host (or with host localhost), port and user information: it throws a
    LibsqlError, with code URL_SCHEME_NOT_SUPPORTED when the scheme is not
    "file" and with code URL_INVALID otherwise, before any call on the
    engine.  For every other target its first act is to open the database
    at the configured path. *)
Theorem createClient_validates (config : Create.ExpandedConfig) (w : World E) :
  if valid_target toLowerCase config then
    exists r evs,
      w_trace (snd (Create._createClient toLowerCase JSON_stringify
                      supportedUrlLink config w))
      = w_trace w ++ EvNew (w_next w) (Create.path config) r :: evs
  else
    exists message,
      Create._createClient toLowerCase JSON_stringify supportedUrlLink config w
      = (Throw (LibsqlError message
                  (if String.eqb (Create.scheme config) "file"
                   then "URL_INVALID" else "URL_SCHEME_NOT_SUPPORTED")
                  None), w).
Proof.
  unfold Create._createClient.
  destruct (String.eqb (Create.scheme config) "file") eqn:Hs; cbn [negb].
  - pose proof (check_authority_valid config Hs) as Hc.
    unfold bind at 1, lift.
    destruct (Create.check_authority toLowerCase JSON_stringify
                supportedUrlLink config) as [[]|e].
    + rewrite Hc. unfold bind at 1, new_Database.
      destruct (eng_new E (w_next w) (Create.path config) (w_eng w))
        as [[[]|e] s0]; cbn [snd w_trace]; [|eauto].
      unfold bind, try_finally, db_close, ret.
      match goal with
      | |- context [executeStmt ?h ?st ?im ?w1] =>
          destruct (executeStmt_footprint h st im w1) as (evs & Htr & _);
          destruct (executeStmt h st im w1) as [[rs|e] w2]
      end; cbn [snd w_trace] in *; rewrite Htr; cbn [w_trace];
        rewrite <- !app_assoc; cbn [app]; eauto.
    + destruct Hc as [-> [message ->]]. eauto.
  - unfold valid_target. rewrite Hs. cbn [andb].
    eexists. reflexivity.
Qed.

(** X19.  [_createClient] leaves no handle open, whether it returns a
    client or throws.  The client it returns is open, has the configured
    path and integer mode, and was returned only after the database could
    be opened and the probing statement ran on it without error. *)
Theorem createClient_handle (config : Create.ExpandedConfig) (w : World E) :
  w_next w ∉ w_open w ->
  w_open (snd (Create._createClient toLowerCase JSON_stringify
                 supportedUrlLink config w)) = w_open w
  /\ forall c w',
       Create._createClient toLowerCase JSON_stringify supportedUrlLink
         config w = (Ok c, w') ->
       c = Sqlite3Client.constructor (Create.path config)
             (Create.intMode config)
       /\ Sqlite3Client.closed c = false
       /\ valid_target toLowerCase config = true
       /\ exists rs,
            fst (executeStmt (w_next w) (StmtString Create.probe_sql)
                   (Create.intMode config)
                   (snd (new_Database (Create.path config) w)))
            = Ok rs
            /\ fst (new_Database (Create.path config) w) = Ok (w_next w).
Proof.
  intros Hfresh.
  destruct (String.eqb (Create.scheme config) "file") eqn:Hs.
  2:{ unfold Create._createClient. rewrite Hs. cbn [negb].
      split; [reflexivity|discriminate]. }
  pose proof (check_authority_valid config Hs) as Hc.
  destruct (Create.check_authority toLowerCase JSON_stringify
              supportedUrlLink config) as [[]|e] eqn:Hca.
  2:{ unfold Create._createClient. rewrite Hs, Hca. cbn [negb].
      split; [reflexivity|discriminate]. }
  rewrite (createClient_steps config w Hs Hca).
  assert (Hid : forall db w1,
            new_Database (Create.path config) w = (Ok db, w1) ->
            db = w_next w).
  { unfold new_Database. intros db w1.
    destruct (eng_new E (w_next w) (Create.path config) (w_eng w))
      as [[[]|e] s0]; [|discriminate]. intros [= <- _]. reflexivity. }
  pose proof (scoped_handle (Create.path config)
    (fun db => executeStmt db (StmtString Create.probe_sql)
                 (Create.intMode config)) w
    (fun db => keeps_executeStmt _ _ _) Hfresh) as [Ho _].
  unfold bind, try_finally in Ho.
  destruct (new_Database (Create.path config) w) as [[db|e] w1] eqn:Hnew.
  2:{ split; [exact Ho|discriminate]. }
  rewrite (Hid db w1 eq_refl) in *. cbn [fst snd].
  destruct (executeStmt (w_next w) (StmtString Create.probe_sql)
              (Create.intMode config) w1) as [[rs|e] w2].
  - split; [exact Ho|]. intros c w' [= <- _].
    split; [reflexivity|]. split; [reflexivity|].
    split; [exact Hc|]. exists rs. split; reflexivity.
  - split; [exact Ho|discriminate].
Qed.

End CreateMore.

Lemma createClient_handle_witness :
  w_open (snd (Create._createClient (E := Toy.engine) (fun h => h) (fun h => h)
                 "https://example.org"
                 {| Create.scheme := "file"; Create.authority := None;
                    Create.path := "/tmp/test.db";
                    Create.intMode := IntMode_number |}
                 (Toy.world0 false)))
  = w_open (Toy.world0 false).
Proof.
  apply (createClient_handle (E := Toy.engine)).
  cbn. apply not_elem_of_empty.
Defined.
